(** * SQL Server Permissions Manager: a shallow embedding

    Source: [src/automation/python/sql_permissions_manager.py], class
    [SQLPermissionsManager].  The methods of the class are state-passing
    functions over the manager object and the outside world (the pyodbc
    driver, the clock, the file system).  A [pyodbc.Error] is the one
    exception the code handles; it is modelled as the [Raise] result. *)

From Stdlib Require Import String Ascii List Arith Lia Bool DecimalString ZArith.
Import ListNotations.
Open Scope string_scope.

(** ** Python string helpers *)

Module Py.

(** [s.split(sep)] for a one-character separator: the pieces between the
    separators, from left to right; never the empty list. *)
Fixpoint split (sep : ascii) (s : string) : list string :=
  match s with
  | EmptyString => [EmptyString]
  | String c s' =>
      if Ascii.eqb c sep then EmptyString :: split sep s'
      else match split sep s' with
           | [] => [String c EmptyString]
           | piece :: pieces => String c piece :: pieces
           end
  end.

(** [l[-1]] on a list of strings. *)
Definition last_item (l : list string) : string := List.last l EmptyString.

(** [c.lower()] on one byte: the letters A..Z move to a..z. *)
Definition lower_ascii (c : ascii) : ascii :=
  let n := nat_of_ascii c in
  if andb (Nat.leb 65 n) (Nat.leb n 90) then ascii_of_nat (n + 32) else c.

(** [s.lower()]. *)
Fixpoint lower (s : string) : string :=
  match s with
  | EmptyString => EmptyString
  | String c s' => String (lower_ascii c) (lower s')
  end.

(** [d.get(key, default)]: an absent key is [None]. *)
Definition get {A : Type} (o : option A) (default : A) : A :=
  match o with
  | Some v => v
  | None => default
  end.

(** What an f-string prints for a value that may be [None]. *)
Definition fmt (o : option string) : string :=
  match o with
  | Some s => s
  | None => "None"
  end.

(** Truth value of [object_name] in [if object_name:]. *)
Definition truthy (o : option string) : bool :=
  match o with
  | Some s => negb (String.eqb s EmptyString)
  | None => false
  end.

(** ["=" * n] and the like. *)
Fixpoint times (s : string) (n : nat) : string :=
  match n with
  | O => EmptyString
  | S n' => s ++ times s n'
  end.

(** [str(n)] for a counter, as an f-string prints it. *)
Definition str_nat (n : nat) : string := NilZero.string_of_uint (Nat.to_uint n).

(** The line feed and the backslash. *)
Definition nl : string := String (ascii_of_nat 10) EmptyString.
Definition backslash : ascii := ascii_of_nat 92.

(** Does the character occur in the string? *)
Fixpoint mem (c : ascii) (s : string) : bool :=
  match s with
  | EmptyString => false
  | String d s' => orb (Ascii.eqb d c) (mem c s')
  end.

End Py.

(** ** Configuration tree (section 3 of the specification; the JSON shape
    of the docstring of [main]) *)

Record Grant := mkGrant {
  g_permission : string;              (* grant['permission'] *)
  g_object : option string            (* grant.get('object') *)
}.

Record PermissionEntry := mkPerm {
  p_login : string;                   (* perm['login'] *)
  p_user : option string;             (* perm.get('user', ...) *)
  p_login_type : option string;       (* perm.get('login_type', 'windows') *)
  p_roles : option (list string);     (* perm.get('roles', []) *)
  p_grants : option (list Grant)      (* perm.get('grants', []) *)
}.

Record DatabaseSpec := mkDb {
  d_name : string;                             (* db_config['name'] *)
  d_permissions : option (list PermissionEntry)
}.

Record ServerSpec := mkServer {
  s_name : string;                    (* server_config['name'] *)
  s_auth_type : option string;        (* server.get('auth_type', 'windows') *)
  s_username : option string;
  s_password : option string;
  s_databases : option (list DatabaseSpec)
}.

Record Config := mkConfig {
  servers : list ServerSpec           (* self.config['servers'] *)
}.

(** ** The outside world *)

(** Result of a call that may raise [pyodbc.Error]; [Raise e] carries
    [str(e)]. *)
Inductive Res (A : Type) : Type :=
| Ok (a : A)
| Raise (e : string).
Arguments Ok {A} a.
Arguments Raise {A} e.

(** One entry of [self.audit_log]. *)
Record AuditRecord := mkAudit {
  a_timestamp : string;
  a_action : string;
  a_sql : string;
  a_status : string;
  a_error : option string             (* the key 'error', when present *)
}.

Definition Conn := nat.
Definition Row := string.

(** The capabilities the manager consumes: a pyodbc session, the clock and
    the file the audit log is written to.  [W] is the state of everything
    outside the process. *)
Class Driver (W : Type) := {
  (* pyodbc.connect(conn_str) *)
  drv_connect : string -> W -> W * Res Conn;
  (* connection.cursor().execute(sql) *)
  drv_execute : Conn -> string -> W -> W * Res unit;
  (* cursor.fetchone() on the cursor last executed on the connection *)
  drv_fetchone : Conn -> W -> W * Res (option Row);
  (* connection.commit() *)
  drv_commit : Conn -> W -> W * Res unit;
  (* connection.close() *)
  drv_close : Conn -> W -> W * Res unit;
  (* datetime.now().isoformat() *)
  drv_now_iso : W -> W * string;
  (* datetime.now().strftime('%Y%m%d_%H%M%S') *)
  drv_now_stamp : W -> W * string;
  (* open(path, 'w') and json.dump: [Some e] is the exception caught *)
  drv_write_json : string -> list AuditRecord -> W -> W * option string
}.

(** ** Manager state *)

Inductive Level := DEBUG | INFO | WARNING | ERROR.

(** Method entries, as they appear in the call trace. *)
Inductive Method :=
| MExecuteSql (sql description : string)
| MCreateLogin (login login_type : string)
| MCreateDatabaseUser (database login : string) (user : option string)
| MAddRoleMember (database user role : string)
| MGrantPermission (database user permission : string) (object_name : option string).

(** Ghost trace of the run: the calls that reached the session, the method
    entries and the entries into the per-server handler.  The source keeps
    no such list; it is what the properties below count. *)
Inductive Event :=
| EvConnect (conn_str : string)
| EvExecute (sql : string)
| EvFetch
| EvCommit
| EvClose
| EvCall (m : Method)
| EvServerFailed (server_name : string).

Record Mgr (W : Type) := mkMgr {
  world : W;
  audit_log : list AuditRecord;              (* self.audit_log *)
  logs : list (Level * string);              (* calls of self.logger *)
  trace : list Event
}.
Arguments mkMgr {W}.
Arguments world {W}.
Arguments audit_log {W}.
Arguments logs {W}.
Arguments trace {W}.

(** The locals [total_success] and [total_failed] of [apply_permissions],
    next to the manager they run on. *)
Record Walk (W : Type) := mkWalk {
  mgr : Mgr W;
  total_success : nat;
  total_failed : nat
}.
Arguments mkWalk {W}.
Arguments mgr {W}.
Arguments total_success {W}.
Arguments total_failed {W}.

(** ** State and exception monad *)

Definition M (S A : Type) : Type := S -> S * Res A.

Definition ret {S A : Type} (a : A) : M S A := fun s => (s, Ok a).

Definition bind {S A B : Type} (m : M S A) (k : A -> M S B) : M S B :=
  fun s =>
    match m s with
    | (s', Ok a) => k a s'
    | (s', Raise e) => (s', Raise e)
    end.

(** [try: body except pyodbc.Error as e: handler]. *)
Definition try_except {S A : Type} (body : M S A) (handler : string -> M S A) : M S A :=
  fun s =>
    match body s with
    | (s', Ok a) => (s', Ok a)
    | (s', Raise e) => handler e s'
    end.

Notation "x <- m ;; k" := (bind m (fun x => k))
  (at level 61, m at next level, right associativity).
Notation "m ;; k" := (bind m (fun _ => k))
  (at level 61, right associativity).

(** [for x in l: body x]. *)
Fixpoint for_each {S A : Type} (l : list A) (body : A -> M S unit) : M S unit :=
  match l with
  | [] => ret tt
  | x :: l' => body x ;; for_each l' body
  end.

(** A relation between the state before and the state after that every
    step of a computation keeps. *)
Definition respects {S A : Type} (R : S -> S -> Prop) (m : M S A) : Prop :=
  forall s, R s (fst (m s)).

(** A computation that always returns, whatever the state it starts in. *)
Definition returns {S A : Type} (m : M S A) : Prop :=
  forall s, exists s' a, m s = (s', Ok a).

(** A method of the manager, called from [apply_permissions]. *)
Definition lift {W A : Type} (m : M (Mgr W) A) : M (Walk W) A :=
  fun w =>
    match m (mgr w) with
    | (s', r) => (mkWalk s' (total_success w) (total_failed w), r)
    end.

(** ** SQL texts and descriptions (the f-strings of the source) *)

Module Sql.

Definition ind8 : string := "        ".
Definition ind12 : string := "            ".

(* line 177 *)
Definition check_login (login : string) : string :=
  "SELECT name FROM sys.server_principals WHERE name = '" ++ login ++ "'".

(* line 187 *)
Definition create_login (login : string) : string :=
  "CREATE LOGIN [" ++ login ++ "] FROM WINDOWS".

(* lines 216-219 *)
Definition check_user (database user : string) : string :=
  Py.nl ++ ind8 ++ "USE [" ++ database ++ "];" ++
  Py.nl ++ ind8 ++ "SELECT name FROM sys.database_principals WHERE name = '" ++ user ++ "'" ++
  Py.nl ++ ind8.

(* lines 229-232 *)
Definition create_user (database user login : string) : string :=
  Py.nl ++ ind8 ++ "USE [" ++ database ++ "];" ++
  Py.nl ++ ind8 ++ "CREATE USER [" ++ user ++ "] FOR LOGIN [" ++ login ++ "]" ++
  Py.nl ++ ind8.

(* lines 253-256 *)
Definition add_role_member (database user role : string) : string :=
  Py.nl ++ ind8 ++ "USE [" ++ database ++ "];" ++
  Py.nl ++ ind8 ++ "ALTER ROLE [" ++ role ++ "] ADD MEMBER [" ++ user ++ "]" ++
  Py.nl ++ ind8.

(* lines 280-283 *)
Definition grant_on (database user permission object_name : string) : string :=
  Py.nl ++ ind12 ++ "USE [" ++ database ++ "];" ++
  Py.nl ++ ind12 ++ "GRANT " ++ permission ++ " ON " ++ object_name ++ " TO [" ++ user ++ "]" ++
  Py.nl ++ ind12.

(* lines 286-289 *)
Definition grant_db (database user permission : string) : string :=
  Py.nl ++ ind12 ++ "USE [" ++ database ++ "];" ++
  Py.nl ++ ind12 ++ "GRANT " ++ permission ++ " TO [" ++ user ++ "]" ++
  Py.nl ++ ind12.

End Sql.

(** ** The manager *)

Section Manager.

Context {W : Type} `{Driver W}.

(** [self.dry_run], fixed when the manager is built. *)
Variable dry_run : bool.

(** *** Primitive steps *)

(** Appends an event to the ghost trace; the source has no such step. *)
Definition record (e : Event) : M (Mgr W) unit :=
  fun s => (mkMgr (world s) (audit_log s) (logs s) (trace s ++ [e]), Ok tt).

(** [self.logger.<level>(msg)] *)
Definition logger (lvl : Level) (msg : string) : M (Mgr W) unit :=
  fun s => (mkMgr (world s) (audit_log s) (logs s ++ [(lvl, msg)]) (trace s), Ok tt).

(** [self.audit_log.append(r)] *)
Definition audit_append (r : AuditRecord) : M (Mgr W) unit :=
  fun s => (mkMgr (world s) (audit_log s ++ [r]) (logs s) (trace s), Ok tt).

(** A call into the outside world. *)
Definition io {A : Type} (f : W -> W * Res A) : M (Mgr W) A :=
  fun s =>
    match f (world s) with
    | (w', r) => (mkMgr w' (audit_log s) (logs s) (trace s), r)
    end.

Definition pyodbc_connect (conn_str : string) : M (Mgr W) Conn :=
  record (EvConnect conn_str) ;; io (drv_connect conn_str).

Definition cursor_execute (connection : Conn) (sql : string) : M (Mgr W) unit :=
  record (EvExecute sql) ;; io (drv_execute connection sql).

Definition cursor_fetchone (connection : Conn) : M (Mgr W) (option Row) :=
  record EvFetch ;; io (drv_fetchone connection).

Definition connection_commit (connection : Conn) : M (Mgr W) unit :=
  record EvCommit ;; io (drv_commit connection).

Definition connection_close (connection : Conn) : M (Mgr W) unit :=
  record EvClose ;; io (drv_close connection).

Definition now_isoformat : M (Mgr W) string :=
  io (fun w => match drv_now_iso w with (w', t) => (w', Ok t) end).

Definition now_stamp : M (Mgr W) string :=
  io (fun w => match drv_now_stamp w with (w', t) => (w', Ok t) end).

(** *** [_get_connection_string], lines 90-119 *)

Definition _get_connection_string (server : ServerSpec) : string :=
  let server_name := s_name server in
  let auth_type := Py.get (s_auth_type server) "windows" in
  if String.eqb (Py.lower auth_type) "windows" then
    "DRIVER={ODBC Driver 17 for SQL Server};" ++
    "SERVER=" ++ server_name ++ ";" ++
    "Trusted_Connection=yes;"
  else
    let username := s_username server in
    let password := s_password server in
    "DRIVER={ODBC Driver 17 for SQL Server};" ++
    "SERVER=" ++ server_name ++ ";" ++
    "UID=" ++ Py.fmt username ++ ";" ++
    "PWD=" ++ Py.fmt password ++ ";".

(** *** [_execute_sql], lines 121-162 *)

Definition _execute_sql (connection : Conn) (sql description : string) : M (Mgr W) bool :=
  record (EvCall (MExecuteSql sql description)) ;;
  try_except
    (if dry_run then
       logger INFO ("[DRY-RUN] Would execute: " ++ description) ;;
       logger DEBUG ("[DRY-RUN] SQL: " ++ sql) ;;
       ret true
     else
       cursor_execute connection sql ;;
       connection_commit connection ;;
       logger INFO ("✓ " ++ description) ;;
       ts <- now_isoformat ;;
       audit_append (mkAudit ts description sql "success" None) ;;
       ret true)
    (fun e =>
       logger ERROR ("✗ Failed: " ++ description) ;;
       logger ERROR ("  Error: " ++ e) ;;
       ts <- now_isoformat ;;
       audit_append (mkAudit ts description sql "failed" (Some e)) ;;
       ret false).

(** *** [_create_login], lines 164-197 *)

Definition _create_login (connection : Conn) (login login_type : string) : M (Mgr W) bool :=
  record (EvCall (MCreateLogin login login_type)) ;;
  let check_sql := Sql.check_login login in
  cursor_execute connection check_sql ;;
  row <- cursor_fetchone connection ;;
  match row with
  | Some _ =>
      logger DEBUG ("Login already exists: " ++ login) ;;
      ret true
  | None =>
      if String.eqb (Py.lower login_type) "windows" then
        let create_sql := Sql.create_login login in
        _execute_sql connection create_sql ("Create login: " ++ login)
      else
        logger WARNING ("SQL login creation not implemented: " ++ login) ;;
        ret false
  end.

(** The name a database user gets when none is given: line 213, and the
    default of line 323. *)
Definition derive_user (login : string) : string :=
  Py.last_item (Py.split Py.backslash login).

(** Lines 212-213: [if user is None: user = login.split('\\')[-1]]. *)
Definition resolve_user (login : string) (user : option string) : string :=
  match user with
  | None => derive_user login
  | Some u => u
  end.

(** Line 323: [perm.get('user', login.split('\\')[-1])]. *)
Definition effective_user (perm : PermissionEntry) : string :=
  Py.get (p_user perm) (derive_user (p_login perm)).

(** *** [_create_database_user], lines 199-238 *)

Definition _create_database_user (connection : Conn) (database login : string)
    (user : option string) : M (Mgr W) bool :=
  record (EvCall (MCreateDatabaseUser database login user)) ;;
  let user := resolve_user login user in
  let check_sql := Sql.check_user database user in
  cursor_execute connection check_sql ;;
  row <- cursor_fetchone connection ;;
  match row with
  | Some _ =>
      logger DEBUG ("User already exists in " ++ database ++ ": " ++ user) ;;
      ret true
  | None =>
      let create_sql := Sql.create_user database user login in
      _execute_sql connection create_sql
        ("Create user '" ++ user ++ "' in database '" ++ database ++ "'")
  end.

(** *** [_add_role_member], lines 240-262 *)

Definition _add_role_member (connection : Conn) (database user role : string) : M (Mgr W) bool :=
  record (EvCall (MAddRoleMember database user role)) ;;
  let sql := Sql.add_role_member database user role in
  _execute_sql connection sql
    ("Add '" ++ user ++ "' to role '" ++ role ++ "' in database '" ++ database ++ "'").

(** *** [_grant_permission], lines 264-292 *)

Definition _grant_permission (connection : Conn) (database user permission : string)
    (object_name : option string) : M (Mgr W) bool :=
  record (EvCall (MGrantPermission database user permission object_name)) ;;
  if Py.truthy object_name then
    let sql := Sql.grant_on database user permission (Py.fmt object_name) in
    let description :=
      "Grant " ++ permission ++ " on " ++ Py.fmt object_name ++ " to '" ++ user ++
      "' in '" ++ database ++ "'" in
    _execute_sql connection sql description
  else
    let sql := Sql.grant_db database user permission in
    let description :=
      "Grant " ++ permission ++ " to '" ++ user ++ "' in '" ++ database ++ "'" in
    _execute_sql connection sql description.

(** *** [apply_permissions]: the walk over the tree, lines 305-353 *)

(* total_success += 1 *)
Definition incr_success : M (Walk W) unit :=
  fun w => (mkWalk (mgr w) (total_success w + 1) (total_failed w), Ok tt).

(* total_failed += 1 *)
Definition incr_failed : M (Walk W) unit :=
  fun w => (mkWalk (mgr w) (total_success w) (total_failed w + 1), Ok tt).

Definition count_outcome (ok : bool) : M (Walk W) unit :=
  if ok then incr_success else incr_failed.

(* lines 330-334 *)
Definition role_body (connection : Conn) (database user role : string) : M (Walk W) unit :=
  ok <- lift (_add_role_member connection database user role) ;;
  count_outcome ok.

(* lines 337-345 *)
Definition grant_body (connection : Conn) (database user : string) (grant : Grant)
    : M (Walk W) unit :=
  let permission_type := g_permission grant in
  let object_name := g_object grant in
  ok <- lift (_grant_permission connection database user permission_type object_name) ;;
  count_outcome ok.

(* lines 322-345 *)
Definition perm_body (connection : Conn) (database : string) (perm : PermissionEntry)
    : M (Walk W) unit :=
  let login := p_login perm in
  let user := effective_user perm in
  created <- lift (_create_login connection login (Py.get (p_login_type perm) "windows")) ;;
  if created then
    mapped <- lift (_create_database_user connection database login (Some user)) ;;
    if mapped then
      for_each (Py.get (p_roles perm) []) (role_body connection database user) ;;
      for_each (Py.get (p_grants perm) []) (grant_body connection database user)
    else ret tt
  else ret tt.

(* lines 317-345 *)
Definition db_body (connection : Conn) (db_config : DatabaseSpec) : M (Walk W) unit :=
  let database := d_name db_config in
  lift (logger INFO (Py.nl ++ "  Database: " ++ database)) ;;
  for_each (Py.get (d_permissions db_config) []) (perm_body connection database).

(* the body of the [try], lines 310-348 *)
Definition server_try (server_config : ServerSpec) : M (Walk W) unit :=
  let server_name := s_name server_config in
  let conn_str := _get_connection_string server_config in
  connection <- lift (pyodbc_connect conn_str) ;;
  lift (logger INFO ("✓ Connected to " ++ server_name)) ;;
  for_each (Py.get (s_databases server_config) []) (db_body connection) ;;
  lift (connection_close connection) ;;
  lift (logger INFO ("✓ Disconnected from " ++ server_name)).

(* the [except pyodbc.Error as e], lines 350-353 *)
Definition server_except (server_config : ServerSpec) (e : string) : M (Walk W) unit :=
  let server_name := s_name server_config in
  lift (record (EvServerFailed server_name)) ;;
  lift (logger ERROR ("✗ Failed to connect to " ++ server_name ++ ": " ++ e)) ;;
  incr_failed.

(* lines 306-353 *)
Definition server_body (server_config : ServerSpec) : M (Walk W) unit :=
  let server_name := s_name server_config in
  lift (logger INFO (Py.nl ++ "--- Processing Server: " ++ server_name ++ " ---")) ;;
  try_except (server_try server_config) (server_except server_config).

(* lines 305-353 *)
Definition walk (config : Config) : M (Walk W) unit :=
  for_each (servers config) server_body.

(** Runs the walk with fresh counters (lines 302-303) and hands the
    counters back. *)
Definition with_totals (m : M (Walk W) unit) : M (Mgr W) (nat * nat) :=
  fun s =>
    match m (mkWalk s 0 0) with
    | (w, Ok _) => (mgr w, Ok (total_success w, total_failed w))
    | (w, Raise e) => (mgr w, Raise e)
    end.

(** *** [_export_audit_log], lines 369-382 *)

Definition _export_audit_log : M (Mgr W) unit :=
  fun s =>
    match audit_log s with
    | [] => (s, Ok tt)
    | _ :: _ =>
        (stamp <- now_stamp ;;
         let audit_file := "sql_permissions_audit_" ++ stamp ++ ".json" in
         failure <- io (fun w => match drv_write_json audit_file (audit_log s) w with
                                 | (w', r) => (w', Ok r)
                                 end) ;;
         match failure with
         | None => logger INFO (Py.nl ++ "Audit log exported to: " ++ audit_file)
         | Some e => logger ERROR ("Failed to export audit log: " ++ e)
         end) s
    end.

(** *** [apply_permissions], lines 294-367 *)

Definition apply_permissions (config : Config) : M (Mgr W) unit :=
  logger INFO (Py.times "=" 80) ;;
  logger INFO "SQL Server Permissions Manager" ;;
  logger INFO (Py.times "=" 80) ;;
  logger INFO ("Mode: " ++ (if dry_run then "DRY-RUN (Preview Only)"
                            else "LIVE (Applying Changes)")) ;;
  logger INFO "" ;;
  totals <- with_totals (walk config) ;;
  logger INFO (Py.nl ++ Py.times "=" 80) ;;
  logger INFO "SUMMARY" ;;
  logger INFO (Py.times "=" 80) ;;
  logger INFO ("Successful operations: " ++ Py.str_nat (fst totals)) ;;
  logger INFO ("Failed operations: " ++ Py.str_nat (snd totals)) ;;
  (if dry_run then
     logger INFO (Py.nl ++ "⚠ DRY-RUN MODE: No changes were applied") ;;
     logger INFO "Run with --apply flag to apply changes"
   else ret tt) ;;
  _export_audit_log.

End Manager.

(** ** [main], lines 385-457 *)

(** What [_load_config] finds at [config_path]: no file, a file that is not
    JSON, or a JSON object that may lack the key 'servers'. *)
Inductive ConfigFile :=
| FileNotFound
| InvalidJson (e : string)
| Parsed (servers : option (list ServerSpec)).

Section Main.

Context {W : Type} `{Driver W}.

(** [_load_config] with [_validate_config], lines 64-88: [inr code] is
    [sys.exit(code)]. *)
Definition _load_config (config_path : string) (file : ConfigFile)
    : Mgr W -> Mgr W * (Config + nat) :=
  fun s =>
    match file with
    | FileNotFound =>
        (fst (logger ERROR ("Configuration file not found: " ++ config_path) s), inr 1)
    | InvalidJson e =>
        (fst (logger ERROR ("Invalid JSON in configuration file: " ++ e) s), inr 1)
    | Parsed keys =>
        let s1 := fst (logger INFO ("Configuration loaded from: " ++ config_path) s) in
        match keys with
        | None =>
            (fst (logger ERROR "Missing required configuration key: servers" s1), inr 1)
        | Some l =>
            (fst (logger INFO "Configuration validation passed" s1), inl (mkConfig l))
        end
    end.

(** The process: builds the manager with [dry_run = not args.apply], runs
    [apply_permissions] and ends.  The exit status is the status of the
    interpreter: 0 when [main] returns, the argument of [sys.exit], 1 for
    an exception nobody caught. *)
Definition main (config_path : string) (apply : bool) (file : ConfigFile) (w : W)
    : Mgr W * nat :=
  match _load_config config_path file (mkMgr w [] [] []) with
  | (s, inr code) => (s, code)
  | (s, inl config) =>
      match apply_permissions (negb apply) config s with
      | (s', Ok _) => (s', 0)
      | (s', Raise _) => (s', 1)
      end
  end.

End Main.

(** ** What a run is observed by *)

(** A role-membership or grant attempt: an entry into [_add_role_member]
    or [_grant_permission]. *)
Definition is_attempt (e : Event) : bool :=
  match e with
  | EvCall (MAddRoleMember _ _ _) => true
  | EvCall (MGrantPermission _ _ _ _) => true
  | _ => false
  end.

Definition attempts (tr : list Event) : nat := length (filter is_attempt tr).

(** An entry into the handler of a server. *)
Definition is_server_failure (e : Event) : bool :=
  match e with
  | EvServerFailed _ => true
  | _ => false
  end.

Definition server_failures (tr : list Event) : nat :=
  length (filter is_server_failure tr).

(** The text of one of the two existence queries (lines 177 and 216-219). *)
Definition existence_check (sql : string) : Prop :=
  (exists login, sql = Sql.check_login login) \/
  (exists database user, sql = Sql.check_user database user).


(** The trace grew, and only by events that satisfy [P]. *)
Definition extends {W : Type} (P : Event -> Prop) (s s' : Mgr W) : Prop :=
  exists tr, trace s' = (trace s ++ tr)%list /\ Forall P tr.

Definition extends_walk {W : Type} (P : Event -> Prop) (w w' : Walk W) : Prop :=
  extends P (mgr w) (mgr w').

(** The events a principal reconciliation may leave in mode [dry]. *)
Record Allows (dry : bool) (P : Event -> Prop) : Prop := mkAllows {
  al_call_exec : forall sql d, P (EvCall (MExecuteSql sql d));
  al_call_login : forall l t, P (EvCall (MCreateLogin l t));
  al_call_user : forall d l u, P (EvCall (MCreateDatabaseUser d l u));
  al_check : forall sql, existence_check sql -> P (EvExecute sql);
  al_fetch : P EvFetch;
  al_live : dry = false -> forall sql, P (EvExecute sql) /\ P EvCommit
}.

(** Neither an attempt nor a server failure. *)
Definition uncounted (e : Event) : Prop :=
  is_attempt e = false /\ is_server_failure e = false.

(** The two sides of the count: what the counters hold, and what the trace
    holds that the counters answer for. *)
Definition counted {W : Type} (w : Walk W) : nat := total_success w + total_failed w.

Definition owed (tr : list Event) : nat := attempts tr + server_failures tr.

(** From [w] to [w'] the counters moved by as much as the trace did. *)
Definition balanced {W : Type} (w w' : Walk W) : Prop :=
  counted w' + owed (trace (mgr w)) = counted w + owed (trace (mgr w')).

(** The query [sql] goes through on the session of [s] and a row comes
    back: the principal it asks for exists. *)
Definition principal_found {W : Type} `{Driver W} (connection : Conn) (sql : string)
    (s : Mgr W) : Prop :=
  exists w1 w2 row,
    drv_execute connection sql (world s) = (w1, Ok tt) /\
    drv_fetchone connection w1 = (w2, Ok (Some row)).

(** The query goes through and no row comes back. *)
Definition principal_missing {W : Type} `{Driver W} (connection : Conn) (sql : string)
    (s : Mgr W) (w2 : W) : Prop :=
  exists w1,
    drv_execute connection sql (world s) = (w1, Ok tt) /\
    drv_fetchone connection w1 = (w2, Ok None).

(** The query raises [e], when it is sent ([fetched = []]) or when its row
    is fetched ([fetched = [EvFetch]]), and leaves the world [wd]. *)
Definition check_raises {W : Type} `{Driver W} (connection : Conn) (sql : string)
    (s : Mgr W) (e : string) (wd : W) (fetched : list Event) : Prop :=
  (drv_execute connection sql (world s) = (wd, Raise e) /\ fetched = []) \/
  (exists w1,
     drv_execute connection sql (world s) = (w1, Ok tt) /\
     drv_fetchone connection w1 = (wd, Raise e) /\ fetched = [EvFetch]).

(** An entry into [_execute_sql]: a statement handed to the executor. *)
Definition is_executor_call (e : Event) : bool :=
  match e with
  | EvCall (MExecuteSql _ _) => true
  | _ => false
  end.

Definition executor_calls (tr : list Event) : nat :=
  length (filter is_executor_call tr).



(** The manager state only grew: audit log, logger calls and trace each
    kept what they held. *)
Definition grew {W : Type} (s s' : Mgr W) : Prop :=
  (exists l, audit_log s' = (audit_log s ++ l)%list) /\
  (exists l, logs s' = (logs s ++ l)%list) /\
  (exists l, trace s' = (trace s ++ l)%list).

(** From [s] to [s'] the audit log took one record for each statement that
    was handed to the executor. *)
Definition audited {W : Type} (s s' : Mgr W) : Prop :=
  length (audit_log s') + executor_calls (trace s) =
  length (audit_log s) + executor_calls (trace s').

(** In a dry run: each attempt counted as a success, and nothing but the
    handler of a server counted as a failure. *)
Definition dry_tally {W : Type} (w w' : Walk W) : Prop :=
  total_success w' + attempts (trace (mgr w)) =
    total_success w + attempts (trace (mgr w')) /\
  total_failed w' + server_failures (trace (mgr w)) =
    total_failed w + server_failures (trace (mgr w')).

(** ** A table-driven session

    A driver whose answers are read off tables, for running the manager on
    concrete configurations. *)

Module Sim.

Record World := mkWorld {
  down : list string;       (* connection strings [pyodbc.connect] refuses *)
  found : list string;      (* queries that return a row *)
  broken : list string;     (* statements that raise *)
  cursor_row : option Row;  (* the row waiting for [fetchone] *)
  clock : nat;
  ran : list string         (* statements the server executed, oldest first *)
}.

Definition listed (x : string) (l : list string) : bool :=
  existsb (String.eqb x) l.

Definition connect (conn_str : string) (w : World) : World * Res Conn :=
  if listed conn_str (down w) then (w, Raise "08001 login timeout expired")
  else (w, Ok 1).

Definition execute (_ : Conn) (sql : string) (w : World) : World * Res unit :=
  if listed sql (broken w) then (w, Raise "42000 statement failed")
  else
    (mkWorld (down w) (found w) (broken w)
       (if listed sql (found w) then Some "name" else None)
       (clock w) (ran w ++ [sql]),
     Ok tt).

Definition fetchone (_ : Conn) (w : World) : World * Res (option Row) :=
  (w, Ok (cursor_row w)).

Definition commit (_ : Conn) (w : World) : World * Res unit := (w, Ok tt).

Definition close (_ : Conn) (w : World) : World * Res unit := (w, Ok tt).

Definition tick (w : World) : World * string :=
  (mkWorld (down w) (found w) (broken w) (cursor_row w) (S (clock w)) (ran w),
   "t" ++ Py.str_nat (clock w)).

Definition write_json (_ : string) (_ : list AuditRecord) (w : World)
    : World * option string := (w, None).

#[global] Instance driver : Driver World := {|
  drv_connect := connect;
  drv_execute := execute;
  drv_fetchone := fetchone;
  drv_commit := commit;
  drv_close := close;
  drv_now_iso := tick;
  drv_now_stamp := tick;
  drv_write_json := write_json
|}.

(** A world where every server answers, nothing exists yet and nothing
    fails. *)
Definition fresh : World := mkWorld [] [] [] None 0 [].

Definition start (w : World) : Mgr World := mkMgr w [] [] [].

End Sim.

(** In the table-driven world, a query that is not refused and is in the
    table of found rows. *)
Definition listed_found (sql : string) (s : Mgr Sim.World) : Prop :=
  Sim.listed sql (Sim.broken (world s)) = false /\
  Sim.listed sql (Sim.found (world s)) = true.

(** ** Concrete runs *)

Module Demo.

Import Sim.

Definition entry : PermissionEntry :=
  mkPerm "DOM\svc" None None (Some ["db_datareader"])
    (Some [mkGrant "EXECUTE" (Some "dbo.uspGetData")]).

Definition app_db : DatabaseSpec := mkDb "AppDb" (Some [entry]).

Definition server_a : ServerSpec := mkServer "SQL-A" None None None (Some [app_db]).


(** Login and user are there already; the role statement is refused. *)
Definition role_refused : World :=
  mkWorld []
    [Sql.check_login "DOM\svc"; Sql.check_user "AppDb" "svc"]
    [Sql.add_role_member "AppDb" "svc" "db_datareader"]
    None 0 [].

(** Server A cannot be reached. *)
Definition a_down : World :=
  mkWorld [_get_connection_string server_a] [] [] None 0 [].

(** The login query itself is refused. *)
Definition check_refused : World :=
  mkWorld [] [] [Sql.check_login "DOM\svc"] None 0 [].

(** An entry whose login is of kind sql. *)
Definition sql_entry : PermissionEntry :=
  mkPerm "report_reader" None (Some "sql") (Some ["db_datareader"]) None.

End Demo.

(** * Health probe: a shallow embedding

    Source: [src/automation/python/health_probe.py], class [HealthProbe]
    and [main].  The HTTP request, the clock and the output file are the
    outside world; the elapsed time is a float in the source and is kept
    abstract here, with the operations the code applies to it. *)

Module Probe.

(** [str(n)] for an integer. *)
Definition str_int (z : Z) : string :=
  if (z <? 0)%Z then "-" ++ Py.str_nat (Z.abs_nat z) else Py.str_nat (Z.abs_nat z).

(** What [requests.get] did, by the [except] clause of lines 74-81 that
    takes it (the clauses are tried in this order). *)
Inductive HttpOutcome :=
| GotResponse (status_code : Z)
| RaisedTimeout
| RaisedSSLError (e : string)
| RaisedConnectionError (e : string)
| RaisedException (e : string).

(** One result dictionary, lines 46-53. *)
Record CheckResult (Ms : Type) := mkResult {
  r_url : option string;
  r_timestamp : string;
  r_healthy : bool;
  r_status_code : option Z;
  r_response_time_ms : option Ms;
  r_error : option string
}.
Arguments mkResult {Ms}.
Arguments r_url {Ms}.
Arguments r_timestamp {Ms}.
Arguments r_healthy {Ms}.
Arguments r_status_code {Ms}.
Arguments r_response_time_ms {Ms}.
Arguments r_error {Ms}.

(** The network, the clock and the file system, with the float operations
    on the elapsed time. *)
Class Net (N Time Ms : Type) := {
  (* datetime.utcnow().isoformat() *)
  net_utcnow_iso : N -> N * string;
  (* datetime.now() *)
  net_now : N -> N * Time;
  (* requests.get(url, timeout=..., verify=..., allow_redirects=True) *)
  net_get : option string -> Z -> bool -> N -> N * HttpOutcome;
  (* round((end_time - start_time).total_seconds() * 1000, 2) *)
  net_elapsed_ms : Time -> Time -> Ms;
  (* truth value of the float in [if result['response_time_ms']] *)
  net_ms_truthy : Ms -> bool;
  (* the float as an f-string prints it *)
  net_fmt_ms : Ms -> string;
  (* f"{(healthy/total*100):.1f}" *)
  net_fmt_rate : nat -> nat -> string;
  (* open(path, 'w') and json.dump: [Some e] is the exception raised *)
  net_write_json : string -> list (CheckResult Ms) -> N -> N * option string
}.

(** The probe object, lines 31-33. *)
Record HealthProbe (Ms : Type) := mkProbe {
  timeout : Z;
  verify_ssl : bool;
  results : list (CheckResult Ms)
}.
Arguments mkProbe {Ms}.
Arguments timeout {Ms}.
Arguments verify_ssl {Ms}.
Arguments results {Ms}.

(** One entry of the list 'endpoints'. *)
Record Endpoint := mkEndpoint {
  e_url : option string;               (* endpoint.get('url') *)
  e_expected_status : option Z         (* endpoint.get('expected_status', 200) *)
}.

(** The parsed command line, lines 132-139. *)
Record Args := mkArgs {
  a_url : option string;
  a_config : option string;
  a_timeout : Z;
  a_no_verify_ssl : bool;
  a_output : option string
}.

(** What lines 154-156 find at [args.config]. *)
Inductive ProbeFile :=
| NoSuchFile
| NotJson
| Loaded (endpoints : option (list Endpoint)).

Section Methods.

Context {N Time Ms : Type} `{Net N Time Ms}.

(* self.results.append(result) *)
Definition append_result (p : HealthProbe Ms) (r : CheckResult Ms) : HealthProbe Ms :=
  mkProbe (timeout p) (verify_ssl p) (results p ++ [r]).

(** [check_endpoint], lines 35-84 *)
Definition check_endpoint (url : option string) (expected_status : Z)
    (p : HealthProbe Ms) (n : N) : HealthProbe Ms * N * CheckResult Ms :=
  match net_utcnow_iso n with
  | (n1, timestamp) =>
      let failed (error : string) :=
        mkResult url timestamp false None None (Some error) in
      match net_now n1 with
      | (n2, start_time) =>
          match net_get url (timeout p) (verify_ssl p) n2 with
          | (n3, GotResponse status_code) =>
              match net_now n3 with
              | (n4, end_time) =>
                  let response_time := net_elapsed_ms start_time end_time in
                  let healthy := Z.eqb status_code expected_status in
                  let result :=
                    mkResult url timestamp healthy (Some status_code)
                      (Some response_time)
                      (if negb healthy then
                         Some ("Expected status " ++ str_int expected_status ++
                               ", got " ++ str_int status_code)
                       else None) in
                  (append_result p result, n4, result)
              end
          | (n3, RaisedTimeout) =>
              let result :=
                failed ("Request timeout after " ++ str_int (timeout p) ++ " seconds") in
              (append_result p result, n3, result)
          | (n3, RaisedSSLError e) =>
              let result := failed ("SSL Error: " ++ e) in
              (append_result p result, n3, result)
          | (n3, RaisedConnectionError e) =>
              let result := failed ("Connection Error: " ++ e) in
              (append_result p result, n3, result)
          | (n3, RaisedException e) =>
              let result := failed ("Unexpected error: " ++ e) in
              (append_result p result, n3, result)
          end
      end
  end.

(** [check_multiple], lines 86-103: the probe and the world after, and the
    local list [results]. *)
Fixpoint check_multiple (endpoints : list Endpoint) (p : HealthProbe Ms) (n : N)
    : HealthProbe Ms * N * list (CheckResult Ms) :=
  match endpoints with
  | [] => (p, n, [])
  | endpoint :: rest =>
      let url := e_url endpoint in
      let expected_status := Py.get (e_expected_status endpoint) 200%Z in
      match check_endpoint url expected_status p n with
      | (p1, n1, result) =>
          match check_multiple rest p1 n1 with
          | (p2, n2, more) => (p2, n2, result :: more)
          end
      end
  end.

(** Lines 121-127: what is printed for one result. *)
Definition result_lines (result : CheckResult Ms) : list string :=
  let status := if r_healthy result then "✓ HEALTHY" else "✗ UNHEALTHY" in
  [status ++ " - " ++ Py.fmt (r_url result);
   "  Status Code: " ++
     match r_status_code result with
     | Some code => str_int code
     | None => "None"
     end;
   match r_response_time_ms result with
   | Some ms =>
       if net_ms_truthy ms then "  Response Time: " ++ net_fmt_ms ms ++ "ms"
       else "  Response Time: N/A"
   | None => "  Response Time: N/A"
   end] ++
  (if Py.truthy (r_error result) then ["  Error: " ++ Py.fmt (r_error result)] else []) ++
  [EmptyString].

(** [print_summary], lines 105-127: the arguments of the calls of [print],
    in order. *)
Definition print_summary (p : HealthProbe Ms) : list string :=
  let total := length (results p) in
  let healthy := length (filter r_healthy (results p)) in
  let unhealthy := total - healthy in
  [Py.nl ++ Py.times "=" 60;
   "HEALTH CHECK SUMMARY";
   Py.times "=" 60;
   "Total Endpoints: " ++ Py.str_nat total;
   "Healthy: " ++ Py.str_nat healthy;
   "Unhealthy: " ++ Py.str_nat unhealthy;
   if Nat.ltb 0 total then "Success Rate: " ++ net_fmt_rate healthy total ++ "%"
   else "N/A";
   Py.times "=" 60 ++ Py.nl] ++
  flat_map result_lines (results p).

(** The end of a process: the probe, the world, what was printed and the
    exit status. *)
Record Run := mkRun {
  run_probe : HealthProbe Ms;
  run_world : N;
  run_stdout : list string;
  run_exit : Z
}.

(** Lines 169-182: summary, optional output file, exit status.  An error
    raised by [open] or [json.dump] is caught by no one: the interpreter
    ends with status 1. *)
Definition finish (args : Args) (p : HealthProbe Ms) (n : N) : Run :=
  let out := print_summary p in
  let status := if existsb (fun r => negb (r_healthy r)) (results p) then 1%Z else 0%Z in
  if Py.truthy (a_output args) then
    match net_write_json (Py.fmt (a_output args)) (results p) n with
    | (n', Some _) => mkRun p n' out 1%Z
    | (n', None) =>
        mkRun p n' (out ++ ["Results saved to: " ++ Py.fmt (a_output args)]) status
    end
  else mkRun p n out status.

(** [main], lines 130-182.  [file] is what the configuration path leads
    to; [help] is the text [parser.print_help()] prints. *)
Definition main (args : Args) (file : ProbeFile) (help : string) (n : N) : Run :=
  let probe := mkProbe (a_timeout args) (negb (a_no_verify_ssl args)) [] in
  if Py.truthy (a_url args) then
    match check_endpoint (a_url args) 200%Z probe n with
    | (p, n', _) => finish args p n'
    end
  else if Py.truthy (a_config args) then
    match file with
    | NoSuchFile =>
        mkRun probe n
          ["Error: Config file '" ++ Py.fmt (a_config args) ++ "' not found"] 1%Z
    | NotJson =>
        mkRun probe n
          ["Error: Invalid JSON in config file '" ++ Py.fmt (a_config args) ++ "'"] 1%Z
    | Loaded endpoints =>
        match check_multiple (Py.get endpoints []) probe n with
        | (p, n', _) => finish args p n'
        end
    end
  else
    mkRun probe n ["Error: Must specify either --url or --config"; help] 1%Z.

End Methods.

(** A scripted network: each request takes the next outcome of the script;
    when the script is over, connections are refused. *)
Module Script.

Definition World := list HttpOutcome.

#[global] Instance net : Net World nat nat := {|
  net_utcnow_iso := fun w => (w, "2024-01-01T00:00:00");
  net_now := fun w => (w, length w);
  net_get := fun _ _ _ w =>
    match w with
    | [] => ([], RaisedConnectionError "connection refused")
    | o :: w' => (w', o)
    end;
  net_elapsed_ms := fun start_time end_time => start_time - end_time;
  net_ms_truthy := fun ms => negb (Nat.eqb ms 0);
  net_fmt_ms := fun ms => Py.str_nat ms ++ ".0";
  net_fmt_rate := fun healthy total => Py.str_nat (healthy * 100 / total) ++ ".0";
  net_write_json := fun _ _ w => (w, None)
|}.

End Script.

End Probe.

(** * Properties *)

(** ** The embedding on concrete inputs *)

Example split_domain_login :
  Py.split Py.backslash "CORP\EU\svc_app" = ["CORP"; "EU"; "svc_app"].
Proof. reflexivity. Qed.

Example split_trailing_separator : Py.split Py.backslash "CORP\" = ["CORP"; ""].
Proof. reflexivity. Qed.

Example lower_mixed_case : Py.lower "Windows" = "windows".
Proof. reflexivity. Qed.

Example connection_string_windows :
  _get_connection_string Demo.server_a =
  "DRIVER={ODBC Driver 17 for SQL Server};SERVER=SQL-A;Trusted_Connection=yes;".
Proof. reflexivity. Qed.

Example connection_string_sql_without_credentials :
  _get_connection_string (mkServer "SQL-C" (Some "SQL") None None None) =
  "DRIVER={ODBC Driver 17 for SQL Server};SERVER=SQL-C;UID=None;PWD=None;".
Proof. reflexivity. Qed.

Example check_user_text :
  Sql.check_user "AppDb" "svc" =
"
        USE [AppDb];
        SELECT name FROM sys.database_principals WHERE name = 'svc'
        ".
Proof. reflexivity. Qed.

Example grant_on_text :
  Sql.grant_on "AppDb" "svc" "EXECUTE" "dbo.uspGetData" =
"
            USE [AppDb];
            GRANT EXECUTE ON dbo.uspGetData TO [svc]
            ".
Proof. reflexivity. Qed.

(** The scenario of section 8 of the specification: one server, one
    database, one entry with one role and one grant, dry run.  Two
    operations are counted as successful, none as failed, and the audit
    log stays empty. *)
Example end_to_end_dry_run :
  let w' := fst (walk true (mkConfig [Demo.server_a])
                   (mkWalk (Sim.start Sim.fresh) 0 0)) in
  total_success w' = 2 /\ total_failed w' = 0 /\ audit_log (mgr w') = [] /\
  Sim.ran (world (mgr w')) =
    [Sql.check_login "DOM\svc"; Sql.check_user "AppDb" "svc"].
Proof. vm_compute. repeat split; reflexivity. Qed.

(** The same scenario, live: four statements are executed and audited. *)
Example end_to_end_live :
  let w' := fst (walk false (mkConfig [Demo.server_a])
                   (mkWalk (Sim.start Sim.fresh) 0 0)) in
  total_success w' = 2 /\ total_failed w' = 0 /\
  map a_status (audit_log (mgr w')) = ["success"; "success"; "success"; "success"] /\
  map a_action (audit_log (mgr w')) =
    ["Create login: DOM\svc";
     "Create user 'svc' in database 'AppDb'";
     "Add 'svc' to role 'db_datareader' in database 'AppDb'";
     "Grant EXECUTE on dbo.uspGetData to 'svc' in 'AppDb'"].
Proof. vm_compute. repeat split; reflexivity. Qed.

(** ** The monad *)

Section MonadFacts.

Context {S : Type}.
Implicit Types s : S.

Lemma bind_ok {A B : Type} (m : M S A) (k : A -> M S B) s s' a :
  m s = (s', Ok a) -> bind m k s = k a s'.
Proof. intros E. unfold bind. now rewrite E. Qed.

Lemma bind_raise {A B : Type} (m : M S A) (k : A -> M S B) s s' e :
  m s = (s', Raise e) -> bind m k s = (s', Raise e).
Proof. intros E. unfold bind. now rewrite E. Qed.

Lemma try_ok {A : Type} (m : M S A) (h : string -> M S A) s s' a :
  m s = (s', Ok a) -> try_except m h s = (s', Ok a).
Proof. intros E. unfold try_except. now rewrite E. Qed.

Lemma try_raise {A : Type} (m : M S A) (h : string -> M S A) s s' e :
  m s = (s', Raise e) -> try_except m h s = h e s'.
Proof. intros E. unfold try_except. now rewrite E. Qed.

(** A loop whose body raises at [x], after the items before [x] went
    through, raises there: the items after [x] are never reached. *)
Lemma for_each_raise {A : Type} (body : A -> M S unit) l1 x l2 s s1 s2 e :
  for_each l1 body s = (s1, Ok tt) ->
  body x s1 = (s2, Raise e) ->
  for_each (l1 ++ x :: l2) body s = (s2, Raise e).
Proof.
  revert s. induction l1 as [|y l1 IH]; intros s E1 E2; simpl in *.
  - unfold ret in E1. injection E1 as <-. now apply bind_raise.
  - unfold bind in *. destruct (body y s) as [s' [[]|e']].
    + now apply IH.
    + discriminate.
Qed.

Section Respects.

Variable R : S -> S -> Prop.
Hypothesis R_refl : forall s, R s s.
Hypothesis R_trans : forall s1 s2 s3, R s1 s2 -> R s2 s3 -> R s1 s3.

Lemma respects_ret {A : Type} (a : A) : respects R (ret a).
Proof. intros s. apply R_refl. Qed.

Lemma respects_bind {A B : Type} (m : M S A) (k : A -> M S B) :
  respects R m -> (forall a, respects R (k a)) -> respects R (bind m k).
Proof.
  intros Hm Hk s. unfold bind. specialize (Hm s).
  destruct (m s) as [s' [a|e]]; simpl in *.
  - eapply R_trans; [exact Hm | apply Hk].
  - exact Hm.
Qed.

Lemma respects_try {A : Type} (m : M S A) (h : string -> M S A) :
  respects R m -> (forall e, respects R (h e)) -> respects R (try_except m h).
Proof.
  intros Hm Hh s. unfold try_except. specialize (Hm s).
  destruct (m s) as [s' [a|e]]; simpl in *.
  - exact Hm.
  - eapply R_trans; [exact Hm | apply Hh].
Qed.

Lemma respects_for_each {A : Type} (l : list A) (body : A -> M S unit) :
  (forall x, respects R (body x)) -> respects R (for_each l body).
Proof.
  intros Hb. induction l as [|x l IH]; simpl.
  - apply respects_ret.
  - apply respects_bind; [apply Hb | intros _; exact IH].
Qed.

End Respects.





End MonadFacts.

(** ** Strings *)

Section SplitFacts.

Variable sep : ascii.

Lemma split_not_nil (s : string) : Py.split sep s <> [].
Proof.
  destruct s as [|c s]; simpl; [discriminate|].
  destruct (Ascii.eqb c sep); [discriminate|].
  destruct (Py.split sep s); discriminate.
Qed.

(** Without a separator the string is its own single piece. *)
Lemma split_no_sep (s : string) : Py.mem sep s = false -> Py.split sep s = [s].
Proof.
  induction s as [|c s IH]; simpl; [reflexivity|].
  intros E. apply orb_false_iff in E as [E1 E2].
  rewrite E1, (IH E2). reflexivity.
Qed.

(** The pieces of [p ++ sep ++ t] are pieces of [p], at least one, and then
    the pieces of [t]. *)
Lemma split_app (p t : string) :
  exists pieces, pieces <> [] /\
    Py.split sep (p ++ String sep t) = (pieces ++ Py.split sep t)%list.
Proof.
  induction p as [|c p (pieces & N & E)]; simpl.
  - rewrite Ascii.eqb_refl. exists [EmptyString]. split; [discriminate|reflexivity].
  - destruct (Ascii.eqb c sep).
    + exists (EmptyString :: pieces). split; [discriminate|]. now rewrite E.
    + rewrite E. destruct pieces as [|h tl]; [contradiction|].
      exists (String c h :: tl). split; [discriminate|reflexivity].
Qed.

Lemma last_item_app (l1 l2 : list string) :
  l2 <> [] -> Py.last_item (l1 ++ l2) = Py.last_item l2.
Proof.
  intros N. unfold Py.last_item. induction l1 as [|x l1 IH]; simpl; [reflexivity|].
  rewrite <- IH. destruct (l1 ++ l2)%list eqn:E; [|reflexivity].
  apply app_eq_nil in E as [_ E]. contradiction.
Qed.

(** [s.split(sep)[-1]] is what follows the last separator. *)
Lemma last_piece (p t : string) :
  Py.mem sep t = false ->
  Py.last_item (Py.split sep (p ++ String sep t)) = t.
Proof.
  intros E. destruct (split_app p t) as (pieces & _ & ->).
  rewrite last_item_app by apply split_not_nil.
  now rewrite (split_no_sep _ E).
Qed.

End SplitFacts.

(** ** The methods of the manager *)

(** Unfolds a reconciler method down to the calls of the driver. *)
Ltac run_check :=
  unfold _create_login, _create_database_user, cursor_execute, cursor_fetchone,
    logger, record, io, bind, ret; simpl.

Section MethodFacts.

Context {W : Type} `{Driver W}.
Implicit Types s : Mgr W.

(** What [_execute_sql] does, in both modes: it returns, never raises;
    dry, it leaves the world and the audit log alone; live, it sends the
    statement, commits when that went through, and appends one record. *)
Lemma execute_sql_spec dry connection sql description s :
  exists s' b tr,
    _execute_sql dry connection sql description s = (s', Ok b) /\
    trace s' = (trace s ++ EvCall (MExecuteSql sql description) :: tr)%list /\
    if dry then
      b = true /\ tr = [] /\ world s' = world s /\ audit_log s' = audit_log s
    else
      (tr = [EvExecute sql] \/ tr = [EvExecute sql; EvCommit]) /\
      exists r, audit_log s' = (audit_log s ++ [r])%list /\
        a_action r = description /\ a_sql r = sql /\
        a_status r = (if b then "success" else "failed") /\
        (if b then a_error r = None else exists e, a_error r = Some e).
Proof.
  unfold _execute_sql, try_except, bind, record, cursor_execute, connection_commit,
    logger, now_isoformat, audit_append, io, ret, bind, record; simpl.
  destruct dry; simpl.
  - eexists _, true, []. repeat split; reflexivity.
  - destruct (drv_execute connection sql (world s)) as [w1 [[]|e]] eqn:E1; simpl.
    + destruct (drv_commit connection w1) as [w2 [[]|e]] eqn:E2; simpl;
        destruct (drv_now_iso w2) as [w3 ts] eqn:E3; simpl.
      * eexists _, true, _. split; [reflexivity|]. simpl.
        split; [rewrite <- ?app_assoc; reflexivity|].
        split; [now right|]. eexists. split; [reflexivity|]. simpl. auto.
      * eexists _, false, _. split; [reflexivity|]. simpl.
        split; [rewrite <- ?app_assoc; reflexivity|].
        split; [now right|]. eexists. split; [reflexivity|]. simpl. eauto 6.
    + destruct (drv_now_iso w1) as [w3 ts] eqn:E3; simpl.
      eexists _, false, _. split; [reflexivity|]. simpl.
      split; [rewrite <- ?app_assoc; reflexivity|].
      split; [now left|]. eexists. split; [reflexivity|]. simpl. eauto 6.
Qed.

Lemma execute_sql_returns dry connection sql description :
  returns (_execute_sql dry connection sql description).
Proof.
  intros s. destruct (execute_sql_spec dry connection sql description s)
    as (s' & b & tr & E & _). now exists s', b.
Qed.

(** *** Which events a method leaves in the trace *)

Section Extends.

Variable P : Event -> Prop.

Lemma extends_refl s : extends P s s.
Proof. exists []. split; [now rewrite app_nil_r | constructor]. Qed.

Lemma extends_trans s1 s2 s3 : extends P s1 s2 -> extends P s2 s3 -> extends P s1 s3.
Proof.
  intros (t1 & E1 & F1) (t2 & E2 & F2). exists (t1 ++ t2)%list. split.
  - now rewrite E2, E1, app_assoc.
  - apply Forall_app. now split.
Qed.

Lemma extends_record e : P e -> respects (extends P) (@record W e).
Proof. intros Pe s. exists [e]. split; [reflexivity | now constructor]. Qed.

Lemma extends_logger lvl msg : respects (extends P) (@logger W lvl msg).
Proof. intros s. exists []. split; [simpl; now rewrite app_nil_r | constructor]. Qed.

Lemma extends_audit_append r : respects (extends P) (@audit_append W r).
Proof. intros s. exists []. split; [simpl; now rewrite app_nil_r | constructor]. Qed.

Lemma extends_io {A : Type} (f : W -> W * Res A) : respects (extends P) (io f).
Proof.
  intros s. unfold io. destruct (f (world s)) as [w' r]. simpl.
  exists []. split; [now rewrite app_nil_r | constructor].
Qed.

Lemma extends_bind {A B : Type} (m : M (Mgr W) A) (k : A -> M (Mgr W) B) :
  respects (extends P) m -> (forall a, respects (extends P) (k a)) ->
  respects (extends P) (bind m k).
Proof. apply respects_bind. exact extends_trans. Qed.

Lemma extends_execute_sql dry connection sql description :
  Allows dry P -> respects (extends P) (_execute_sql dry connection sql description).
Proof.
  intros A s.
  destruct (execute_sql_spec dry connection sql description s)
    as (s' & b & tr & E & T & D).
  rewrite E. simpl. eexists. split; [exact T|].
  constructor; [apply (al_call_exec _ _ A)|].
  destruct dry.
  - destruct D as (_ & -> & _). constructor.
  - destruct D as ([-> | ->] & _);
      repeat constructor; now apply (al_live _ _ A).
Qed.

Lemma extends_check connection sql :
  P (EvExecute sql) -> P EvFetch ->
  respects (extends P) (cursor_execute connection sql ;; cursor_fetchone connection).
Proof.
  intros Pe Pf. unfold cursor_execute, cursor_fetchone.
  repeat (apply extends_bind; [|intros ?]);
    auto using extends_record, extends_io.
Qed.

Lemma extends_create_login dry connection login login_type :
  Allows dry P -> respects (extends P) (_create_login dry connection login login_type).
Proof.
  intros A. unfold _create_login, cursor_execute, cursor_fetchone.
  assert (P (EvExecute (Sql.check_login login)))
    by (apply (al_check _ _ A); left; now exists login).
  pose proof (al_fetch _ _ A). pose proof (al_call_login _ _ A login login_type).
  repeat (apply extends_bind; [|intros ?]);
    auto using extends_record, extends_io.
  destruct a1 as [row|].
  - apply extends_bind; [apply extends_logger | intros _; apply respects_ret, extends_refl].
  - destruct (String.eqb _ _).
    + now apply extends_execute_sql.
    + apply extends_bind; [apply extends_logger | intros _; apply respects_ret, extends_refl].
Qed.

Lemma extends_create_database_user dry connection database login user :
  Allows dry P ->
  respects (extends P) (_create_database_user dry connection database login user).
Proof.
  intros A. unfold _create_database_user, cursor_execute, cursor_fetchone.
  assert (P (EvExecute (Sql.check_user database (resolve_user login user))))
    by (apply (al_check _ _ A); right; now exists database, (resolve_user login user)).
  pose proof (al_fetch _ _ A).
  pose proof (al_call_user _ _ A database login user).
  repeat (apply extends_bind; [|intros ?]);
    auto using extends_record, extends_io.
  destruct a1 as [row|].
  - apply extends_bind; [apply extends_logger | intros _; apply respects_ret, extends_refl].
  - now apply extends_execute_sql.
Qed.

End Extends.

(** *** The existence checks *)

Lemma create_login_found dry connection login login_type s :
  principal_found connection (Sql.check_login login) s ->
  exists w2,
    _create_login dry connection login login_type s =
      (mkMgr w2 (audit_log s)
         (logs s ++ [(DEBUG, "Login already exists: " ++ login)])
         (trace s ++ [EvCall (MCreateLogin login login_type);
                      EvExecute (Sql.check_login login); EvFetch]),
       Ok true).
Proof.
  intros (w1 & w2 & row & E1 & E2). exists w2.
  run_check. rewrite E1. simpl. rewrite E2. simpl.
  now rewrite <- !app_assoc.
Qed.

Lemma create_database_user_found dry connection database login user s :
  principal_found connection (Sql.check_user database (resolve_user login user)) s ->
  exists w2,
    _create_database_user dry connection database login user s =
      (mkMgr w2 (audit_log s)
         (logs s ++ [(DEBUG, "User already exists in " ++ database ++ ": " ++
                             resolve_user login user)])
         (trace s ++ [EvCall (MCreateDatabaseUser database login user);
                      EvExecute (Sql.check_user database (resolve_user login user));
                      EvFetch]),
       Ok true).
Proof.
  intros (w1 & w2 & row & E1 & E2). exists w2.
  run_check. rewrite E1. simpl. rewrite E2. simpl.
  now rewrite <- !app_assoc.
Qed.

Lemma create_login_check_raises dry connection login login_type s e wd fetched :
  check_raises connection (Sql.check_login login) s e wd fetched ->
  _create_login dry connection login login_type s =
    (mkMgr wd (audit_log s) (logs s)
       (trace s ++ EvCall (MCreateLogin login login_type) ::
                   EvExecute (Sql.check_login login) :: fetched),
     Raise e).
Proof.
  intros [[E ->] | (w1 & E1 & E2 & ->)]; run_check.
  - rewrite E. simpl. now rewrite <- !app_assoc.
  - rewrite E1. simpl. rewrite E2. simpl. now rewrite <- !app_assoc.
Qed.

Lemma create_database_user_check_raises dry connection database login user s e wd fetched :
  check_raises connection (Sql.check_user database (resolve_user login user)) s e wd
    fetched ->
  _create_database_user dry connection database login user s =
    (mkMgr wd (audit_log s) (logs s)
       (trace s ++ EvCall (MCreateDatabaseUser database login user) ::
                   EvExecute (Sql.check_user database (resolve_user login user)) ::
                   fetched),
     Raise e).
Proof.
  intros [[E ->] | (w1 & E1 & E2 & ->)]; run_check.
  - rewrite E. simpl. now rewrite <- !app_assoc.
  - rewrite E1. simpl. rewrite E2. simpl. now rewrite <- !app_assoc.
Qed.

End MethodFacts.

(** ** The walk *)

Section WalkFacts.

Context {W : Type} `{Driver W}.
Implicit Types (s : Mgr W) (w : Walk W).

Lemma lift_eq {A : Type} (m : M (Mgr W) A) w s' r :
  m (mgr w) = (s', r) ->
  lift m w = (mkWalk s' (total_success w) (total_failed w), r).
Proof. intros E. unfold lift. now rewrite E. Qed.

(** *** Nothing escapes the handlers *)










(** *** A relation kept by every step of the walk

    The walk is built from lifted methods, the two counted calls and the
    handler; a relation that each of these keeps is kept by the walk. *)

Section WalkRespects.

Variable dry : bool.
Variable Q : Event -> Prop.
Variable R : Walk W -> Walk W -> Prop.
Hypothesis Q_allows : Allows dry Q.
Hypothesis Q_connect : forall c, Q (EvConnect c).
Hypothesis Q_close : Q EvClose.
Hypothesis R_refl : forall w, R w w.
Hypothesis R_trans : forall w1 w2 w3, R w1 w2 -> R w2 w3 -> R w1 w3.
Hypothesis R_lift : forall (A : Type) (m : M (Mgr W) A),
  respects (extends Q) m -> respects R (lift m).
Hypothesis R_role : forall connection database user role,
  respects R (role_body dry connection database user role).
Hypothesis R_grant : forall connection database user grant,
  respects R (grant_body dry connection database user grant).
Hypothesis R_except : forall server_config e,
  respects R (server_except server_config e).

Let bindR {A B : Type} := @respects_bind (Walk W) R R_trans A B.

Lemma respects_loop {A : Type} (l : list A) (body : A -> M (Walk W) unit) :
  (forall x, respects R (body x)) -> respects R (for_each l body).
Proof. apply respects_for_each; [apply R_refl | apply R_trans]. Qed.

Lemma respects_perm_body connection database perm :
  respects R (perm_body dry connection database perm).
Proof.
  unfold perm_body. apply bindR.
  { now apply R_lift, extends_create_login. }
  intros [|]; [|apply respects_ret, R_refl].
  apply bindR.
  { now apply R_lift, extends_create_database_user. }
  intros [|]; [|apply respects_ret, R_refl].
  apply bindR; [|intros _]; apply respects_loop; intros x.
  - apply R_role.
  - apply R_grant.
Qed.

Lemma respects_db_body connection db_config :
  respects R (db_body dry connection db_config).
Proof.
  unfold db_body. apply bindR.
  - apply R_lift, extends_logger.
  - intros _. apply respects_loop. intros perm. apply respects_perm_body.
Qed.

Lemma respects_server_try server_config :
  respects R (server_try dry server_config).
Proof.
  unfold server_try, pyodbc_connect, connection_close.
  apply bindR.
  { apply R_lift, extends_bind; [now apply extends_record|intros _].
    apply extends_io. }
  intros connection. apply bindR; [apply R_lift, extends_logger|intros _].
  apply bindR.
  { apply respects_loop. intros db. apply respects_db_body. }
  intros _. apply bindR; [|intros _; apply R_lift, extends_logger].
  apply R_lift, extends_bind; [now apply extends_record|intros _].
  apply extends_io.
Qed.

Lemma respects_server_body server_config :
  respects R (server_body dry server_config).
Proof.
  unfold server_body. apply bindR; [apply R_lift, extends_logger|intros _].
  apply respects_try; [apply R_trans|apply respects_server_try|apply R_except].
Qed.

Lemma respects_walk config : respects R (walk dry config).
Proof. apply respects_loop. intros server. apply respects_server_body. Qed.

End WalkRespects.

(** *** Which events a walk leaves in the trace *)

Section ExtendsWalk.

Variable dry : bool.
Variable P : Event -> Prop.
Hypothesis P_allows : Allows dry P.
Hypothesis P_call : forall m, P (EvCall m).
Hypothesis P_connect : forall c, P (EvConnect c).
Hypothesis P_close : P EvClose.
Hypothesis P_failed : forall n, P (EvServerFailed n).

Lemma extends_walk_refl w : extends_walk P w w.
Proof. apply extends_refl. Qed.

Lemma extends_walk_trans w1 w2 w3 :
  extends_walk P w1 w2 -> extends_walk P w2 w3 -> extends_walk P w1 w3.
Proof. apply extends_trans. Qed.

Lemma extends_lift {A : Type} (m : M (Mgr W) A) :
  respects (extends P) m -> respects (extends_walk P) (lift m).
Proof.
  intros Hm w. specialize (Hm (mgr w)). unfold lift.
  destruct (m (mgr w)) as [s' r]. exact Hm.
Qed.

Lemma extends_count_outcome ok : respects (extends_walk P) (@count_outcome W ok).
Proof. intros w. destruct ok; apply extends_refl. Qed.

Lemma extends_incr_failed : respects (extends_walk P) (@incr_failed W).
Proof. intros w. apply extends_refl. Qed.

Let bindW {A B : Type} := @respects_bind (Walk W) (extends_walk P) extends_walk_trans A B.

Lemma extends_role_body connection database user role :
  respects (extends_walk P) (role_body dry connection database user role).
Proof.
  unfold role_body. apply bindW; [|apply extends_count_outcome].
  apply extends_lift. unfold _add_role_member.
  apply extends_bind; [now apply extends_record|intros _].
  now apply extends_execute_sql.
Qed.

Lemma extends_grant_body connection database user grant :
  respects (extends_walk P) (grant_body dry connection database user grant).
Proof.
  unfold grant_body. apply bindW; [|apply extends_count_outcome].
  apply extends_lift. unfold _grant_permission.
  apply extends_bind; [now apply extends_record|intros _].
  destruct (Py.truthy _); now apply extends_execute_sql.
Qed.

Lemma extends_server_except server_config e :
  respects (extends_walk P) (@server_except W server_config e).
Proof.
  unfold server_except.
  apply bindW; [apply extends_lift; now apply extends_record|intros _].
  apply bindW; [apply extends_lift, extends_logger|intros _].
  apply extends_incr_failed.
Qed.

Lemma extends_walk_all config : respects (extends_walk P) (walk dry config).
Proof.
  apply (respects_walk dry P).
  - exact P_allows.
  - exact P_connect.
  - exact P_close.
  - apply extends_walk_refl.
  - apply extends_walk_trans.
  - intros A m. apply extends_lift.
  - apply extends_role_body.
  - apply extends_grant_body.
  - apply extends_server_except.
Qed.

Lemma extends_with_totals (m : M (Walk W) unit) :
  respects (extends_walk P) m -> respects (extends P) (with_totals m).
Proof.
  intros Hm s. unfold with_totals. specialize (Hm (mkWalk s 0 0)).
  destruct (m (mkWalk s 0 0)) as [w [[]|e]]; exact Hm.
Qed.

Lemma extends_export_audit_log : respects (extends P) (@_export_audit_log W _).
Proof.
  intros s. unfold _export_audit_log. destruct (audit_log s) as [|r l].
  - apply extends_refl.
  - unfold now_stamp.
    apply extends_bind; [apply extends_io|intros stamp].
    apply extends_bind; [apply extends_io|intros [e|]]; apply extends_logger.
Qed.

Lemma extends_apply_permissions config :
  respects (extends P) (apply_permissions dry config).
Proof.
  unfold apply_permissions.
  repeat (apply extends_bind; [|intros ?]);
    auto using extends_logger, extends_with_totals, extends_walk_all,
      extends_export_audit_log.
  destruct dry.
  - apply extends_bind; [|intros ?]; apply extends_logger.
  - apply respects_ret, extends_refl.
Qed.

End ExtendsWalk.

(** *** Counters against the trace *)

Lemma owed_app (t1 t2 : list Event) : owed (t1 ++ t2) = owed t1 + owed t2.
Proof.
  unfold owed, attempts, server_failures.
  rewrite !filter_app, !length_app. lia.
Qed.

Lemma owed_uncounted (tr : list Event) : Forall uncounted tr -> owed tr = 0.
Proof.
  induction 1 as [|e tr [Ea Ef] _ IH]; [reflexivity|].
  unfold owed, attempts, server_failures in *. simpl. now rewrite Ea, Ef.
Qed.

Lemma uncounted_allowed dry : Allows dry uncounted.
Proof. constructor; intros; repeat split; reflexivity. Qed.

Lemma balanced_refl w : balanced w w.
Proof. reflexivity. Qed.

Lemma balanced_trans w1 w2 w3 : balanced w1 w2 -> balanced w2 w3 -> balanced w1 w3.
Proof. unfold balanced. lia. Qed.

Lemma balanced_lift {A : Type} (m : M (Mgr W) A) :
  respects (extends uncounted) m -> respects balanced (lift m).
Proof.
  intros Hm w. destruct (Hm (mgr w)) as (tr & E & F). unfold lift.
  destruct (m (mgr w)) as [s' r]. simpl in *.
  unfold balanced, counted. simpl. rewrite E, owed_app, (owed_uncounted _ F). lia.
Qed.

(** A counted call: one attempt enters the trace, the executor returns,
    and one of the two counters takes the outcome. *)
Lemma balanced_attempt e (m : M (Mgr W) bool) :
  is_attempt e = true -> returns m -> respects (extends uncounted) m ->
  respects balanced (ok <- lift (record e ;; m) ;; count_outcome ok).
Proof.
  intros Ha Hr Hm w. unfold bind at 1, lift, bind, record. simpl.
  match goal with |- context [m ?s0] => set (s1 := s0) end.
  destruct (Hr s1) as (s' & b & E). destruct (Hm s1) as (tr & T & F).
  rewrite E in *. simpl in *.
  unfold balanced, counted. destruct b; simpl; rewrite T; subst s1; simpl;
    rewrite !owed_app, (owed_uncounted _ F);
    unfold owed, attempts, server_failures; simpl; rewrite Ha;
    destruct e; try discriminate; simpl; lia.
Qed.

Lemma balanced_role_body dry connection database user role :
  respects balanced (role_body dry connection database user role).
Proof.
  unfold role_body, _add_role_member. apply balanced_attempt.
  - reflexivity.
  - apply execute_sql_returns.
  - apply extends_execute_sql, uncounted_allowed.
Qed.

Lemma balanced_grant_body dry connection database user grant :
  respects balanced (grant_body dry connection database user grant).
Proof.
  unfold grant_body, _grant_permission.
  destruct (Py.truthy _); apply balanced_attempt;
    try reflexivity; try apply execute_sql_returns;
    apply extends_execute_sql, uncounted_allowed.
Qed.

Lemma balanced_server_except server_config e :
  respects balanced (@server_except W server_config e).
Proof.
  intros w. unfold server_except, bind, lift, record, logger, incr_failed. simpl.
  unfold balanced, counted. simpl. rewrite owed_app.
  unfold owed at 3, attempts, server_failures. simpl. lia.
Qed.

Lemma balanced_walk dry config : respects balanced (walk dry config).
Proof.
  apply (respects_walk dry uncounted).
  - apply uncounted_allowed.
  - now split.
  - now split.
  - apply balanced_refl.
  - apply balanced_trans.
  - intros A m. apply balanced_lift.
  - apply balanced_role_body.
  - apply balanced_grant_body.
  - apply balanced_server_except.
Qed.

Lemma attempts_extends_uncounted s s' :
  extends uncounted s s' -> attempts (trace s') = attempts (trace s).
Proof.
  intros (tr & E & F). rewrite E. unfold attempts.
  rewrite filter_app, length_app.
  pose proof (owed_uncounted _ F) as O. unfold owed, attempts in O. lia.
Qed.


End WalkFacts.

(** * The claims *)

Section Claims.

Context {W : Type} `{Driver W}.
Implicit Types (s : Mgr W) (w : Walk W).

(** C1, as amended.  Every call of [_execute_sql] returns a boolean and
    never raises.  In live mode the call appends exactly one record to the
    audit log, with the description, the statement and the status
    'success' or 'failed'.  In dry-run mode the call returns [True] and
    appends nothing: the audit log is as it was. *)
Theorem execute_sql_audit_trail dry connection sql description s :
  exists s' b,
    _execute_sql dry connection sql description s = (s', Ok b) /\
    if dry then b = true /\ audit_log s' = audit_log s
    else exists r,
      audit_log s' = (audit_log s ++ [r])%list /\
      a_action r = description /\ a_sql r = sql /\
      a_status r = (if b then "success" else "failed").
Proof.
  destruct (execute_sql_spec dry connection sql description s)
    as (s' & b & tr & E & _ & D).
  exists s', b. split; [exact E|]. destruct dry.
  - now destruct D as (-> & _ & _ & ->).
  - destruct D as (_ & r & Ea & Eb & Ec & Ed & _). now exists r.
Qed.




(** C3, as amended.  At the end of the walk, [total_success + total_failed]
    is the number of role-membership and grant attempts made during the
    run plus the number of servers whose processing ended in the handler
    of line 350 (which adds one to [total_failed]); skipped entries and the
    outcomes of login and user creation add nothing. *)
Theorem totals_match_trace dry config s :
  let w' := fst (walk dry config (mkWalk s 0 0)) in
  exists tr,
    trace (mgr w') = (trace s ++ tr)%list /\
    total_success w' + total_failed w' = attempts tr + server_failures tr.
Proof.
  intros w'.
  assert (E : extends_walk (fun _ => True) (mkWalk s 0 0) w').
  { apply (extends_walk_all dry (fun _ => True)); auto. constructor; auto. }
  destruct E as (tr & E & _). exists tr. split; [exact E|].
  pose proof (balanced_walk dry config (mkWalk s 0 0)) as B.
  fold w' in B. unfold balanced, counted in B. simpl in *.
  rewrite E, owed_app in B. unfold owed in B. lia.
Qed.


(** C6.  When [_create_login] returns [False] for an entry, or returns
    [True] and [_create_database_user] then returns [False], the step for
    the entry ends there: both counters are as before the entry, and the
    trace holds no more role-membership or grant attempts than before. *)
Theorem skipped_entry_counts_nothing dry connection database perm w s1 :
  let login := p_login perm in
  let login_type := Py.get (p_login_type perm) "windows" in
  _create_login dry connection login login_type (mgr w) = (s1, Ok false) \/
  (exists s0,
     _create_login dry connection login login_type (mgr w) = (s0, Ok true) /\
     _create_database_user dry connection database login
       (Some (effective_user perm)) s0 = (s1, Ok false)) ->
  perm_body dry connection database perm w =
    (mkWalk s1 (total_success w) (total_failed w), Ok tt) /\
  attempts (trace s1) = attempts (trace (mgr w)).
Proof.
  intros login login_type [E | (s0 & E0 & E1)].
  - split.
    + unfold perm_body. fold login login_type.
      now rewrite (bind_ok _ _ _ _ _ (lift_eq _ _ _ _ E)).
    + apply attempts_extends_uncounted.
      pose proof (extends_create_login uncounted dry connection login login_type
                    (uncounted_allowed dry) (mgr w)) as X.
      now rewrite E in X.
  - split.
    + unfold perm_body. fold login login_type.
      rewrite (bind_ok _ _ _ _ _ (lift_eq _ _ _ _ E0)).
      set (w0 := mkWalk s0 (total_success w) (total_failed w)).
      change s0 with (mgr w0) in E1.
      now rewrite (bind_ok _ _ _ _ _ (lift_eq _ _ _ _ E1)).
    + pose proof (extends_create_login uncounted dry connection login login_type
                    (uncounted_allowed dry) (mgr w)) as X.
      rewrite E0 in X.
      pose proof (extends_create_database_user uncounted dry connection database
                    login (Some (effective_user perm)) (uncounted_allowed dry) s0) as Y.
      rewrite E1 in Y. simpl in *.
      now rewrite (attempts_extends_uncounted _ _ Y), (attempts_extends_uncounted _ _ X).
Qed.

(** C8.  When the login exists in the state each of two successive calls
    of [_create_login] meets, both calls return [True]; the two calls send
    the existence query and nothing else, so neither goes through
    [_execute_sql], nothing is committed and the audit log is as it was.
    The same holds for [_create_database_user] and the database user. *)
Theorem ensure_twice_is_a_no_op dry connection login login_type database user s su :
  let q_login := Sql.check_login login in
  let q_user := Sql.check_user database (resolve_user login user) in
  let login_step := [EvCall (MCreateLogin login login_type); EvExecute q_login; EvFetch] in
  let user_step :=
    [EvCall (MCreateDatabaseUser database login user); EvExecute q_user; EvFetch] in
  principal_found connection q_login s ->
  principal_found connection q_login
    (fst (_create_login dry connection login login_type s)) ->
  principal_found connection q_user su ->
  principal_found connection q_user
    (fst (_create_database_user dry connection database login user su)) ->
  (exists s1 s2,
     _create_login dry connection login login_type s = (s1, Ok true) /\
     _create_login dry connection login login_type s1 = (s2, Ok true) /\
     audit_log s2 = audit_log s /\
     trace s2 = (trace s ++ login_step ++ login_step)%list) /\
  (exists s1 s2,
     _create_database_user dry connection database login user su = (s1, Ok true) /\
     _create_database_user dry connection database login user s1 = (s2, Ok true) /\
     audit_log s2 = audit_log su /\
     trace s2 = (trace su ++ user_step ++ user_step)%list).
Proof.
  intros q_login q_user login_step user_step F1 F2 F3 F4. split.
  - destruct (create_login_found dry connection login login_type s F1) as (w1 & E1).
    rewrite E1 in F2. simpl in F2.
    destruct (create_login_found dry connection login login_type _ F2) as (w2 & E2).
    eexists _, _. split; [exact E1|]. split; [exact E2|]. simpl.
    split; [reflexivity|]. now rewrite <- app_assoc.
  - destruct (create_database_user_found dry connection database login user su F3)
      as (w1 & E1).
    rewrite E1 in F4. simpl in F4.
    destruct (create_database_user_found dry connection database login user _ F4)
      as (w2 & E2).
    eexists _, _. split; [exact E1|]. split; [exact E2|]. simpl.
    split; [reflexivity|]. now rewrite <- app_assoc.
Qed.

(** C9.  For a login of kind 'sql' that the existence query does not find,
    [_create_login] returns [False] and does not raise; it logs one
    warning, sends nothing but the existence query and appends nothing to
    the audit log: [_execute_sql] is not entered. *)
Theorem sql_login_is_skipped dry connection login s (after : W) :
  principal_missing connection (Sql.check_login login) s after ->
  _create_login dry connection login "sql" s =
    (mkMgr after (audit_log s)
       (logs s ++ [(WARNING, "SQL login creation not implemented: " ++ login)])
       (trace s ++ [EvCall (MCreateLogin login "sql");
                    EvExecute (Sql.check_login login); EvFetch]),
     Ok false).
Proof.
  intros (w1 & E1 & E2). run_check. rewrite E1. simpl. rewrite E2. simpl.
  now rewrite <- !app_assoc.
Qed.

(** C10.  The existence queries go to the session in dry-run mode as in
    live mode.  When one of them raises while an entry of a connected
    server is processed (the login query, or the user query after
    [_create_login] returned [True]), the error leaves the entry, the
    database loop and the server loop, and the handler of the server takes
    it: [total_failed] grows by one, [total_success] stays, the audit log
    is the one the failing query started from, and the trace ends with the
    query followed at once by the handler, so that no later entry or
    database of that server is processed and the connection is not
    closed. *)
Theorem check_error_reaches_server_handler
    dry server_config connection dbs1 db dbs2 ps1 perm ps2
    (w at_db at_entry : Walk W) (wc wd : W) (sc : Mgr W) e fetched :
  let name := s_name server_config in
  let database := d_name db in
  let login := p_login perm in
  let login_type := Py.get (p_login_type perm) "windows" in
  let user := effective_user perm in
  let connected :=
    mkWalk
      (mkMgr wc (audit_log (mgr w))
         (logs (mgr w) ++
            [(INFO, Py.nl ++ "--- Processing Server: " ++ name ++ " ---");
             (INFO, "✓ Connected to " ++ name)])
         (trace (mgr w) ++ [EvConnect (_get_connection_string server_config)]))
      (total_success w) (total_failed w) in
  s_databases server_config = Some (dbs1 ++ db :: dbs2)%list ->
  d_permissions db = Some (ps1 ++ perm :: ps2)%list ->
  drv_connect (_get_connection_string server_config) (world (mgr w)) =
    (wc, Ok connection) ->
  for_each dbs1 (db_body dry connection) connected = (at_db, Ok tt) ->
  for_each ps1 (perm_body dry connection database)
    (fst (lift (logger INFO (Py.nl ++ "  Database: " ++ database)) at_db)) =
    (at_entry, Ok tt) ->
  (sc = mgr at_entry /\
   check_raises connection (Sql.check_login login) sc e wd fetched) \/
  (_create_login dry connection login login_type (mgr at_entry) = (sc, Ok true) /\
   check_raises connection (Sql.check_user database user) sc e wd fetched) ->
  (exists entry_call query,
     existence_check query /\
     server_body dry server_config w =
       (mkWalk
          (mkMgr wd (audit_log sc)
             (logs sc ++ [(ERROR, "✗ Failed to connect to " ++ name ++ ": " ++ e)])
             (trace sc ++ EvCall entry_call :: EvExecute query :: fetched ++
                [EvServerFailed name]))
          (total_success at_entry) (total_failed at_entry + 1),
        Ok tt)) /\
  (forall s query,
     world (fst (cursor_execute connection query s)) =
       fst (drv_execute connection query (world s))) /\
  (forall s,
     exists tr,
       trace (fst (_create_login true connection login login_type s)) =
         (trace s ++ EvCall (MCreateLogin login login_type) ::
                     EvExecute (Sql.check_login login) :: tr)%list) /\
  (forall s,
     exists tr,
       trace (fst (_create_database_user true connection database login (Some user) s)) =
         (trace s ++ EvCall (MCreateDatabaseUser database login (Some user)) ::
                     EvExecute (Sql.check_user database user) :: tr)%list).
Proof.
  intros name database login login_type user connected Hdbs Hperms Hconn Hpre_db
    Hpre_perm Hcheck.
  split; [|split; [|split]].
  - assert (Hentry : exists entry_call query,
              existence_check query /\
              perm_body dry connection database perm at_entry =
                (mkWalk
                   (mkMgr wd (audit_log sc) (logs sc)
                      (trace sc ++ EvCall entry_call :: EvExecute query :: fetched))
                   (total_success at_entry) (total_failed at_entry),
                 Raise e)).
    { destruct Hcheck as [[-> C] | [L C]].
      - exists (MCreateLogin login login_type), (Sql.check_login login).
        split; [left; now exists login|].
        unfold perm_body. fold login login_type.
        apply bind_raise, lift_eq.
        now apply create_login_check_raises.
      - exists (MCreateDatabaseUser database login (Some user)),
          (Sql.check_user database user).
        split; [right; now exists database, user|].
        unfold perm_body. fold login login_type user.
        rewrite (bind_ok _ _ _ _ _ (lift_eq _ _ _ _ L)).
        apply bind_raise.
        exact (lift_eq _ (mkWalk sc (total_success at_entry) (total_failed at_entry)) _ _
                 (create_database_user_check_raises dry connection database login
                    (Some user) sc e wd fetched C)). }
    destruct Hentry as (entry_call & query & Hq & Hentry).
    exists entry_call, query. split; [exact Hq|].
    assert (Hdb : db_body dry connection db at_db =
                    (mkWalk
                       (mkMgr wd (audit_log sc) (logs sc)
                          (trace sc ++ EvCall entry_call :: EvExecute query :: fetched))
                       (total_success at_entry) (total_failed at_entry),
                     Raise e)).
    { unfold db_body. fold database. rewrite Hperms. simpl Py.get.
      unfold bind at 1.
      destruct (lift (logger INFO (Py.nl ++ "  Database: " ++ database)) at_db)
        as [w' [[]|e']] eqn:El; [|discriminate El].
      simpl in Hpre_perm.
      exact (for_each_raise _ _ _ _ _ _ _ _ Hpre_perm Hentry). }
    pose proof (for_each_raise _ _ _ dbs2 _ _ _ _ Hpre_db Hdb) as Hloop.
    unfold server_body. fold name.
    unfold bind at 1, lift at 1, logger at 1. simpl.
    erewrite try_raise.
    2:{ unfold server_try. fold name. unfold bind at 1.
        unfold lift at 1, pyodbc_connect, bind at 1, record, io. simpl.
        rewrite Hconn. simpl.
        unfold bind at 1, lift at 1, logger at 1. simpl.
        rewrite Hdbs. simpl Py.get.
        apply bind_raise.
        rewrite <- !app_assoc. simpl. exact Hloop. }
    unfold server_except, bind, lift, record, logger, incr_failed. simpl.
    fold name. now rewrite <- !app_assoc.
  - intros s query. unfold cursor_execute, record, io, bind. simpl.
    now destruct (drv_execute connection query (world s)) as [w1 [[]|e1]].
  - intros s.
    unfold _create_login, _execute_sql, try_except, cursor_execute, cursor_fetchone,
      logger, record, io, bind, ret; simpl.
    destruct (drv_execute connection (Sql.check_login login) (world s))
      as [w1 [[]|e1]]; simpl.
    + destruct (drv_fetchone connection w1) as [w2 [[row|]|e2]]; simpl.
      * eexists. now rewrite <- !app_assoc.
      * destruct (String.eqb (Py.lower login_type) "windows"); simpl;
          eexists; now rewrite <- !app_assoc.
      * eexists. now rewrite <- !app_assoc.
    + eexists. now rewrite <- !app_assoc.
  - intros s.
    unfold _create_database_user, _execute_sql, try_except, cursor_execute,
      cursor_fetchone, logger, record, io, bind, ret; simpl.
    destruct (drv_execute connection (Sql.check_user database user) (world s))
      as [w1 [[]|e1]]; simpl.
    + destruct (drv_fetchone connection w1) as [w2 [[row|]|e2]]; simpl;
        eexists; now rewrite <- !app_assoc.
    + eexists. now rewrite <- !app_assoc.
Qed.

End Claims.

(** The dry-run call of C1 on a fresh manager: the audit log stays empty,
    so no record, simulated or other, was appended. *)
Lemma dry_run_appends_no_record :
  let s := Sim.start Sim.fresh in
  let s' := fst (_execute_sql true 1 (Sql.grant_db "AppDb" "svc" "SELECT")
                   "Grant SELECT to 'svc' in 'AppDb'" s) in
  ~ (exists r, audit_log s' = (audit_log s ++ [r])%list /\ a_status r = "simulated").
Proof.
  simpl. intros (r & E & _). discriminate E.
Qed.


(** One server that cannot be reached: the failure counter is at 1 though
    no role-membership or grant attempt was made. *)
Lemma unreachable_server_is_counted :
  let w' := fst (walk true (mkConfig [Demo.server_a])
                   (mkWalk (Sim.start Demo.a_down) 0 0)) in
  total_success w' + total_failed w' <> attempts (trace (mgr w')).
Proof. vm_compute. discriminate. Qed.


Lemma skipped_entry_counts_nothing_instance :
  let w := mkWalk (Sim.start Sim.fresh) 0 0 in
  let s1 := fst (_create_login true 1 "report_reader" "sql" (mgr w)) in
  perm_body true 1 "AppDb" Demo.sql_entry w = (mkWalk s1 0 0, Ok tt) /\
  attempts (trace s1) = attempts (trace (mgr w)).
Proof.
  intros w s1.
  apply (skipped_entry_counts_nothing true 1 "AppDb" Demo.sql_entry w s1).
  left. reflexivity.
Defined.

(** C7.  With no explicit user name, the name [apply_permissions] works
    with and the name [_create_database_user] falls back to are the same:
    what follows the last backslash of the login, and the whole login when
    it has no backslash.  For "DOM\svc" that is "svc", and for "svc" it is
    "svc". *)
Theorem derived_user_name domain name perm :
  Py.mem Py.backslash name = false ->
  p_user perm = None ->
  p_login perm = domain ++ String Py.backslash name \/ p_login perm = name ->
  effective_user perm = name /\
  resolve_user (p_login perm) None = name /\
  derive_user "DOM\svc" = "svc" /\
  derive_user "svc" = "svc".
Proof.
  intros N U L.
  assert (D : derive_user (p_login perm) = name).
  { unfold derive_user. destruct L as [-> | ->].
    - now apply last_piece.
    - now rewrite split_no_sep. }
  unfold effective_user. rewrite U. simpl. rewrite D. repeat split; reflexivity.
Qed.

Lemma derived_user_name_instance :
  effective_user Demo.entry = "svc" /\
  resolve_user (p_login Demo.entry) None = "svc" /\
  derive_user "DOM\svc" = "svc" /\
  derive_user "svc" = "svc".
Proof.
  apply (derived_user_name "DOM" "svc" Demo.entry).
  - reflexivity.
  - reflexivity.
  - left. reflexivity.
Defined.

Lemma ensure_twice_is_a_no_op_instance :
  let s := Sim.start Demo.role_refused in
  (exists s1 s2,
     _create_login false 1 "DOM\svc" "windows" s = (s1, Ok true) /\
     _create_login false 1 "DOM\svc" "windows" s1 = (s2, Ok true) /\
     audit_log s2 = audit_log s /\
     length (trace s2) = 6) /\
  (exists s1 s2,
     _create_database_user false 1 "AppDb" "DOM\svc" None s = (s1, Ok true) /\
     _create_database_user false 1 "AppDb" "DOM\svc" None s1 = (s2, Ok true) /\
     audit_log s2 = audit_log s /\
     length (trace s2) = 6).
Proof.
  intros s.
  assert (F : forall sql s', listed_found sql s' -> principal_found 1 sql s').
  { intros sql s' L. unfold principal_found. simpl. unfold Sim.execute, Sim.fetchone.
    destruct L as [B L]. rewrite B. simpl. rewrite L. now eexists _, _, _. }
  destruct (ensure_twice_is_a_no_op false 1 "DOM\svc" "windows" "AppDb" None s s)
    as [(a1 & a2 & A1 & A2 & A3 & A4) (b1 & b2 & B1 & B2 & B3 & B4)];
    try (apply F; split; reflexivity).
  split.
  - exists a1, a2. repeat split; try assumption. now rewrite A4.
  - exists b1, b2. repeat split; try assumption. now rewrite B4.
Defined.

Lemma sql_login_is_skipped_instance :
  let s := Sim.start Sim.fresh in
  exists s',
    _create_login true 1 "report_reader" "sql" s = (s', Ok false) /\
    logs s' = [(WARNING, "SQL login creation not implemented: report_reader")] /\
    audit_log s' = [].
Proof.
  intros s. eexists. split.
  - apply (sql_login_is_skipped true 1 "report_reader" s).
    unfold principal_missing. simpl. eexists. split; reflexivity.
  - split; reflexivity.
Defined.

Lemma check_error_reaches_server_handler_instance :
  let w := mkWalk (Sim.start Demo.check_refused) 0 0 in
  exists w',
    server_body true Demo.server_a w = (w', Ok tt) /\
    total_success w' = 0 /\ total_failed w' = 1 /\
    audit_log (mgr w') = [] /\
    trace (mgr w') =
      [EvConnect (_get_connection_string Demo.server_a);
       EvCall (MCreateLogin "DOM\svc" "windows");
       EvExecute (Sql.check_login "DOM\svc");
       EvServerFailed "SQL-A"].
Proof.
  intros w.
  set (connected :=
         mkWalk
           (mkMgr Demo.check_refused []
              [(INFO, Py.nl ++ "--- Processing Server: SQL-A ---");
               (INFO, "✓ Connected to SQL-A")]
              [EvConnect (_get_connection_string Demo.server_a)]) 0 0).
  set (at_entry := fst (lift (logger INFO (Py.nl ++ "  Database: AppDb")) connected)).
  destruct (check_error_reaches_server_handler true Demo.server_a 1
              [] Demo.app_db [] [] Demo.entry []
              w connected at_entry Demo.check_refused Demo.check_refused
              (mgr at_entry) "42000 statement failed" [])
    as [(entry_call & query & _ & E) _].
  - reflexivity.
  - reflexivity.
  - reflexivity.
  - reflexivity.
  - reflexivity.
  - left. split; [reflexivity|]. left. split; reflexivity.
  - eexists. split; [exact E|].
    assert (X := E). vm_compute in X. injection X as <- <-.
    repeat split; reflexivity.
Defined.

(** * Further properties of the manager *)

(** ** A relation on manager states kept by a whole run

    Every step of a run is a logger call, a call into the outside world, a
    trace event, or [_execute_sql]; a relation kept by these is kept by
    [apply_permissions]. *)

Section RunRespects.

Context {W : Type} `{Driver W}.
Implicit Types (s : Mgr W) (w : Walk W).

Variable dry : bool.
Variable Rm : Mgr W -> Mgr W -> Prop.
Hypothesis Rm_refl : forall s, Rm s s.
Hypothesis Rm_trans : forall s1 s2 s3, Rm s1 s2 -> Rm s2 s3 -> Rm s1 s3.
Hypothesis Rm_logger : forall lvl msg, respects Rm (logger lvl msg).
Hypothesis Rm_io : forall (A : Type) (f : W -> W * Res A), respects Rm (io f).
Hypothesis Rm_record : forall e, is_executor_call e = false -> respects Rm (record e).
Hypothesis Rm_execute_sql : forall connection sql description,
  respects Rm (_execute_sql dry connection sql description).

Let Rw (w w' : Walk W) : Prop := Rm (mgr w) (mgr w').

Let bindM {A B : Type} := @respects_bind (Mgr W) Rm Rm_trans A B.

Lemma Rw_trans w1 w2 w3 : Rw w1 w2 -> Rw w2 w3 -> Rw w1 w3.
Proof. apply Rm_trans. Qed.

Let bindK {A B : Type} := @respects_bind (Walk W) Rw Rw_trans A B.

Lemma kept_lift {A : Type} (m : M (Mgr W) A) : respects Rm m -> respects Rw (lift m).
Proof.
  intros Hm w. specialize (Hm (mgr w)). unfold lift.
  destruct (m (mgr w)) as [s' r]. exact Hm.
Qed.

Lemma kept_loop {A : Type} (l : list A) (body : A -> M (Walk W) unit) :
  (forall x, respects Rw (body x)) -> respects Rw (for_each l body).
Proof.
  apply respects_for_each; [intros w; apply Rm_refl | apply Rw_trans].
Qed.

Lemma kept_check connection sql :
  respects Rm (cursor_execute connection sql ;; cursor_fetchone connection).
Proof.
  unfold cursor_execute, cursor_fetchone.
  apply bindM; [|intros _].
  - apply bindM; [now apply Rm_record | intros _; apply Rm_io].
  - apply bindM; [now apply Rm_record | intros _; apply Rm_io].
Qed.

Lemma kept_create_login connection login login_type :
  respects Rm (_create_login dry connection login login_type).
Proof.
  unfold _create_login, cursor_execute, cursor_fetchone.
  apply bindM; [now apply Rm_record | intros _].
  apply bindM.
  { apply bindM; [now apply Rm_record | intros _; apply Rm_io]. }
  intros _. apply bindM.
  { apply bindM; [now apply Rm_record | intros _; apply Rm_io]. }
  intros [row|].
  - apply bindM; [apply Rm_logger | intros _; apply respects_ret, Rm_refl].
  - destruct (String.eqb _ _).
    + apply Rm_execute_sql.
    + apply bindM; [apply Rm_logger | intros _; apply respects_ret, Rm_refl].
Qed.

Lemma kept_create_database_user connection database login user :
  respects Rm (_create_database_user dry connection database login user).
Proof.
  unfold _create_database_user, cursor_execute, cursor_fetchone.
  apply bindM; [now apply Rm_record | intros _].
  apply bindM.
  { apply bindM; [now apply Rm_record | intros _; apply Rm_io]. }
  intros _. apply bindM.
  { apply bindM; [now apply Rm_record | intros _; apply Rm_io]. }
  intros [row|].
  - apply bindM; [apply Rm_logger | intros _; apply respects_ret, Rm_refl].
  - apply Rm_execute_sql.
Qed.

Lemma kept_count_outcome ok : respects Rw (@count_outcome W ok).
Proof. intros w. destruct ok; apply Rm_refl. Qed.

Lemma kept_role_body connection database user role :
  respects Rw (role_body dry connection database user role).
Proof.
  unfold role_body, _add_role_member.
  apply bindK; [|apply kept_count_outcome].
  apply kept_lift, bindM; [now apply Rm_record | intros _; apply Rm_execute_sql].
Qed.

Lemma kept_grant_body connection database user grant :
  respects Rw (grant_body dry connection database user grant).
Proof.
  unfold grant_body, _grant_permission.
  apply bindK; [|apply kept_count_outcome].
  apply kept_lift, bindM; [now apply Rm_record | intros _].
  destruct (Py.truthy _); apply Rm_execute_sql.
Qed.

Lemma kept_perm_body connection database perm :
  respects Rw (perm_body dry connection database perm).
Proof.
  unfold perm_body. apply bindK; [apply kept_lift, kept_create_login|].
  intros [|]; [|apply respects_ret; intros w; apply Rm_refl].
  apply bindK; [apply kept_lift, kept_create_database_user|].
  intros [|]; [|apply respects_ret; intros w; apply Rm_refl].
  apply bindK; [|intros _]; apply kept_loop; intros x.
  - apply kept_role_body.
  - apply kept_grant_body.
Qed.

Lemma kept_db_body connection db_config :
  respects Rw (db_body dry connection db_config).
Proof.
  unfold db_body. apply bindK; [apply kept_lift, Rm_logger | intros _].
  apply kept_loop. intros perm. apply kept_perm_body.
Qed.

Lemma kept_server_body server_config :
  respects Rw (server_body dry server_config).
Proof.
  unfold server_body. apply bindK; [apply kept_lift, Rm_logger | intros _].
  apply respects_try; [apply Rw_trans| |].
  - unfold server_try, pyodbc_connect, connection_close.
    apply bindK.
    { apply kept_lift, bindM; [now apply Rm_record | intros _; apply Rm_io]. }
    intros connection. apply bindK; [apply kept_lift, Rm_logger | intros _].
    apply bindK; [apply kept_loop; intros db; apply kept_db_body | intros _].
    apply bindK; [|intros _; apply kept_lift, Rm_logger].
    apply kept_lift, bindM; [now apply Rm_record | intros _; apply Rm_io].
  - intros e. unfold server_except.
    apply bindK; [apply kept_lift; now apply Rm_record | intros _].
    apply bindK; [apply kept_lift, Rm_logger | intros _].
    intros w. apply Rm_refl.
Qed.

Lemma kept_walk config : respects Rw (walk dry config).
Proof. apply kept_loop. intros server. apply kept_server_body. Qed.

Lemma kept_with_totals config : respects Rm (with_totals (walk dry config)).
Proof.
  intros s. unfold with_totals. pose proof (kept_walk config (mkWalk s 0 0)) as K.
  destruct (walk dry config (mkWalk s 0 0)) as [w [[]|e]]; exact K.
Qed.

Lemma kept_export_audit_log : respects Rm (@_export_audit_log W _).
Proof.
  intros s. unfold _export_audit_log. destruct (audit_log s) as [|r l].
  - apply Rm_refl.
  - unfold now_stamp.
    apply bindM; [apply Rm_io | intros stamp].
    apply bindM; [apply Rm_io | intros [e|]]; apply Rm_logger.
Qed.

Lemma kept_apply_permissions config : respects Rm (apply_permissions dry config).
Proof.
  unfold apply_permissions.
  do 5 (apply bindM; [apply Rm_logger | intros _]).
  apply bindM; [apply kept_with_totals | intros totals].
  do 5 (apply bindM; [apply Rm_logger | intros _]).
  apply bindM; [|intros _; apply kept_export_audit_log].
  destruct dry.
  - apply bindM; [apply Rm_logger | intros _; apply Rm_logger].
  - apply respects_ret, Rm_refl.
Qed.

End RunRespects.

(** ** The audit log over a whole run *)

Section AuditFacts.

Context {W : Type} `{Driver W}.
Implicit Types (s : Mgr W) (w : Walk W).

Lemma executor_calls_app (t1 t2 : list Event) :
  executor_calls (t1 ++ t2) = executor_calls t1 + executor_calls t2.
Proof. unfold executor_calls. now rewrite filter_app, length_app. Qed.

Lemma audited_refl s : audited s s.
Proof. reflexivity. Qed.

Lemma audited_trans s1 s2 s3 : audited s1 s2 -> audited s2 s3 -> audited s1 s3.
Proof. unfold audited. lia. Qed.

Lemma audited_record e : is_executor_call e = false -> respects audited (@record W e).
Proof.
  intros E s. unfold audited, record. simpl.
  rewrite executor_calls_app. unfold executor_calls at 3. simpl. rewrite E. simpl. lia.
Qed.

Lemma audited_execute_sql connection sql description :
  respects audited (_execute_sql false connection sql description).
Proof.
  intros s.
  destruct (execute_sql_spec false connection sql description s)
    as (s' & b & tr & E & T & [-> | ->] & r & A & _);
    rewrite E; unfold audited; simpl; rewrite T, A, executor_calls_app, length_app;
    unfold executor_calls at 3; simpl; lia.
Qed.

(** X1.  Over a whole live run of [apply_permissions], on any
    configuration and against any session, the audit log takes exactly one
    record for each statement handed to [_execute_sql]: login and user
    creations as well as role memberships and grants. *)
Theorem live_run_audits_every_statement config s :
  let s' := fst (apply_permissions false config s) in
  exists tr,
    trace s' = (trace s ++ tr)%list /\
    length (audit_log s') = length (audit_log s) + executor_calls tr.
Proof.
  intros s'.
  assert (E : extends (fun _ => True) s s').
  { apply (extends_apply_permissions false (fun _ => True)); auto.
    constructor; auto. }
  destruct E as (tr & E & _). exists tr. split; [exact E|].
  assert (A : audited s s').
  { apply (kept_apply_permissions false audited).
    - apply audited_refl.
    - apply audited_trans.
    - intros lvl msg s0. reflexivity.
    - intros A f s0. unfold io. destruct (f (world s0)). reflexivity.
    - apply audited_record.
    - apply audited_execute_sql. }
  unfold audited in A. rewrite E, executor_calls_app in A. lia.
Qed.

(** X2.  Over a whole dry run of [apply_permissions], on any configuration
    and against any session, the audit log is left exactly as it was; and
    a process started without --apply ends with an empty audit log,
    whatever the configuration file holds. *)
Theorem dry_run_leaves_audit_log config s :
  audit_log (fst (apply_permissions true config s)) = audit_log s /\
  (forall config_path file (w0 : W),
     audit_log (fst (main config_path false file w0)) = []).
Proof.
  assert (K : forall c s0, audit_log (fst (apply_permissions true c s0)) = audit_log s0).
  { intros c. apply (kept_apply_permissions true (fun s1 s2 => audit_log s2 = audit_log s1)).
    + reflexivity.
    + intros s1 s2 s3 E1 E2. now rewrite E2.
    + intros lvl msg s0. reflexivity.
    + intros A f s0. unfold io. destruct (f (world s0)). reflexivity.
    + intros e _ s0. reflexivity.
    + intros connection sql description s0.
      destruct (execute_sql_spec true connection sql description s0)
        as (s' & b & tr & E & _ & _ & _ & _ & A).
      now rewrite E. }
  split; [apply K|].
  intros config_path file w0. unfold main.
  destruct file as [| e | [l|]]; simpl; try reflexivity.
  match goal with
  | |- context [apply_permissions true ?c ?s0] =>
      specialize (K c s0); destruct (apply_permissions true c s0) as [s1 [[]|e]]
  end; exact K.
Qed.

Lemma grew_refl s : grew s s.
Proof. repeat split; exists []; now rewrite app_nil_r. Qed.

Lemma grew_trans s1 s2 s3 : grew s1 s2 -> grew s2 s3 -> grew s1 s3.
Proof.
  intros ((a1 & A1) & (l1 & L1) & (t1 & T1)) ((a2 & A2) & (l2 & L2) & (t2 & T2)).
  repeat split.
  - exists (a1 ++ a2)%list. now rewrite A2, A1, app_assoc.
  - exists (l1 ++ l2)%list. now rewrite L2, L1, app_assoc.
  - exists (t1 ++ t2)%list. now rewrite T2, T1, app_assoc.
Qed.

Lemma grew_logger lvl msg : respects grew (@logger W lvl msg).
Proof.
  intros s. repeat split; simpl.
  - exists []. now rewrite app_nil_r.
  - now exists [(lvl, msg)].
  - exists []. now rewrite app_nil_r.
Qed.

Lemma grew_record e : respects grew (@record W e).
Proof.
  intros s. repeat split; simpl.
  - exists []. now rewrite app_nil_r.
  - exists []. now rewrite app_nil_r.
  - now exists [e].
Qed.

Lemma grew_audit_append r : respects grew (@audit_append W r).
Proof.
  intros s. repeat split; simpl.
  - now exists [r].
  - exists []. now rewrite app_nil_r.
  - exists []. now rewrite app_nil_r.
Qed.

Lemma grew_io {A : Type} (f : W -> W * Res A) : respects grew (io f).
Proof.
  intros s. unfold io. destruct (f (world s)). simpl.
  repeat split; exists []; simpl; now rewrite app_nil_r.
Qed.

Let bindG {A B : Type} := @respects_bind (Mgr W) grew grew_trans A B.

Lemma grew_execute_sql dry connection sql description :
  respects grew (_execute_sql dry connection sql description).
Proof.
  unfold _execute_sql, cursor_execute, connection_commit, now_isoformat.
  apply bindG; [apply grew_record | intros _].
  apply respects_try; [apply grew_trans| |].
  - destruct dry.
    + apply bindG; [apply grew_logger | intros _].
      apply bindG; [apply grew_logger | intros _].
      apply respects_ret, grew_refl.
    + apply bindG.
      { apply bindG; [apply grew_record | intros _; apply grew_io]. }
      intros _. apply bindG.
      { apply bindG; [apply grew_record | intros _; apply grew_io]. }
      intros _. apply bindG; [apply grew_logger | intros _].
      apply bindG; [apply grew_io | intros ts].
      apply bindG; [apply grew_audit_append | intros _].
      apply respects_ret, grew_refl.
  - intros e.
    apply bindG; [apply grew_logger | intros _].
    apply bindG; [apply grew_logger | intros _].
    apply bindG; [apply grew_io | intros ts].
    apply bindG; [apply grew_audit_append | intros _].
    apply respects_ret, grew_refl.
Qed.

(** X3.  [apply_permissions] only ever appends: in either mode, after a
    run the audit log, the sequence of logger calls and the trace each
    start with what they held before the run.  No record is dropped or
    rewritten. *)
Theorem run_is_append_only dry config s :
  let s' := fst (apply_permissions dry config s) in
  (exists records, audit_log s' = (audit_log s ++ records)%list) /\
  (exists lines, logs s' = (logs s ++ lines)%list) /\
  (exists events, trace s' = (trace s ++ events)%list).
Proof.
  apply (kept_apply_permissions dry grew).
  - apply grew_refl.
  - apply grew_trans.
  - apply grew_logger.
  - intros A f. apply grew_io.
  - intros e _. apply grew_record.
  - apply grew_execute_sql.
Qed.

End AuditFacts.

(** ** The executor in live mode *)

Section ExecutorFacts.

Context {W : Type} `{Driver W}.
Implicit Types (s : Mgr W).

(** X4.  In live mode [_execute_sql] reports [True] exactly when both the
    statement and the commit went through.  A statement that raises is
    never committed; a commit that raises turns the outcome into a
    failure; and in both failures the audit record carries the text of
    the error the driver raised. *)
Theorem live_statement_outcome connection sql description s :
  let entry := EvCall (MExecuteSql sql description) in
  let failed_lines e :=
    [(ERROR, "✗ Failed: " ++ description); (ERROR, "  Error: " ++ e)] in
  match drv_execute connection sql (world s) with
  | (w1, Raise e) =>
      exists ts w',
        _execute_sql false connection sql description s =
          (mkMgr w'
             (audit_log s ++ [mkAudit ts description sql "failed" (Some e)])
             (logs s ++ failed_lines e)
             (trace s ++ [entry; EvExecute sql]),
           Ok false)
  | (w1, Ok _) =>
      match drv_commit connection w1 with
      | (w2, Raise e) =>
          exists ts w',
            _execute_sql false connection sql description s =
              (mkMgr w'
                 (audit_log s ++ [mkAudit ts description sql "failed" (Some e)])
                 (logs s ++ failed_lines e)
                 (trace s ++ [entry; EvExecute sql; EvCommit]),
               Ok false)
      | (w2, Ok _) =>
          exists ts w',
            _execute_sql false connection sql description s =
              (mkMgr w'
                 (audit_log s ++ [mkAudit ts description sql "success" None])
                 (logs s ++ [(INFO, "✓ " ++ description)])
                 (trace s ++ [entry; EvExecute sql; EvCommit]),
               Ok true)
      end
  end.
Proof.
  intros entry failed_lines.
  unfold _execute_sql, try_except, cursor_execute, connection_commit, logger,
    now_isoformat, audit_append, record, io, bind, ret; simpl.
  destruct (drv_execute connection sql (world s)) as [w1 [[]|e]]; simpl.
  - destruct (drv_commit connection w1) as [w2 [[]|e]]; simpl;
      destruct (drv_now_iso w2) as [w3 ts]; simpl;
      exists ts, w3; now rewrite <- !app_assoc.
  - destruct (drv_now_iso w1) as [w3 ts]; simpl.
    exists ts, w3. now rewrite <- !app_assoc.
Qed.

End ExecutorFacts.

(** ** The derived user name *)

Section DeriveFacts.

Variable sep : ascii.

(** A string that holds the separator splits at its last occurrence. *)
Lemma last_sep_decompose (s : string) :
  Py.mem sep s = true ->
  exists p t, s = p ++ String sep t /\ Py.mem sep t = false.
Proof.
  induction s as [|c s IH]; simpl; [discriminate|].
  destruct (Py.mem sep s) eqn:M.
  - intros _. destruct (IH eq_refl) as (p & t & -> & N).
    now exists (String c p), t.
  - rewrite orb_false_r. intros E. apply Ascii.eqb_eq in E as ->.
    now exists EmptyString, s.
Qed.

End DeriveFacts.

(** X5.  For every login, the derived user name is the tail of the login
    that follows its last backslash: the login is a prefix followed by the
    derived name, the prefix is empty (no backslash in the login) or ends
    with a backslash, and the derived name holds no backslash.  Deriving
    again from a derived name changes nothing. *)
Theorem derived_name_is_the_last_component (login : string) :
  (exists prefix,
     login = prefix ++ derive_user login /\
     (prefix = EmptyString \/
      exists domain, prefix = domain ++ String Py.backslash EmptyString)) /\
  Py.mem Py.backslash (derive_user login) = false /\
  derive_user (derive_user login) = derive_user login.
Proof.
  assert (A : forall p c t, (p ++ String c EmptyString) ++ t = p ++ String c t).
  { induction p as [|d p IH]; intros c t; simpl; [reflexivity | now rewrite IH]. }
  assert (D : forall t, Py.mem Py.backslash t = false -> derive_user t = t).
  { intros t N. unfold derive_user. now rewrite split_no_sep. }
  destruct (Py.mem Py.backslash login) eqn:M.
  - destruct (last_sep_decompose Py.backslash login M) as (p & t & -> & N).
    assert (E : derive_user (p ++ String Py.backslash t) = t)
      by (unfold derive_user; now apply last_piece).
    rewrite E. repeat split.
    + exists (p ++ String Py.backslash EmptyString). split.
      * now rewrite A.
      * right. now exists p.
    + exact N.
    + now apply D.
  - rewrite (D login M). repeat split.
    + exists EmptyString. split; [reflexivity | now left].
    + exact M.
    + now apply D.
Qed.

(** ** Roles and grants of one entry *)

Section EntryFacts.

Context {W : Type} `{Driver W}.
Implicit Types (s : Mgr W) (w : Walk W).

Lemma no_attempt_in_uncounted (tr : list Event) :
  Forall uncounted tr -> filter is_attempt tr = [].
Proof.
  induction 1 as [|e tr [Ea _] _ IH]; [reflexivity|]. simpl. now rewrite Ea.
Qed.

(** One counted call: it returns whatever the statement did, one counter
    takes the outcome, and its entry is the one attempt added. *)
Lemma attempt_step e (m : M (Mgr W) bool) w :
  is_attempt e = true -> returns m -> respects (extends uncounted) m ->
  exists w',
    (ok <- lift (record e ;; m) ;; count_outcome ok) w = (w', Ok tt) /\
    counted w' = counted w + 1 /\
    filter is_attempt (trace (mgr w')) =
      (filter is_attempt (trace (mgr w)) ++ [e])%list.
Proof.
  intros Ha Hr Hm. unfold bind at 1, lift, bind, record. simpl.
  match goal with |- context [m ?s0] => set (s1 := s0) end.
  destruct (Hr s1) as (s' & b & E). destruct (Hm s1) as (tr & T & F).
  rewrite E in *. simpl in *.
  destruct b; simpl; eexists; (split; [reflexivity|]); unfold counted; simpl;
    (split; [lia|]); rewrite T; subst s1; simpl;
    rewrite !filter_app, (no_attempt_in_uncounted _ F); simpl;
    rewrite Ha, app_nil_r; reflexivity.
Qed.

Lemma attempt_loop {A : Type} (body : A -> M (Walk W) unit) (ev : A -> Event) :
  (forall x w, exists w',
     body x w = (w', Ok tt) /\
     counted w' = counted w + 1 /\
     filter is_attempt (trace (mgr w')) =
       (filter is_attempt (trace (mgr w)) ++ [ev x])%list) ->
  forall l w, exists w',
    for_each l body w = (w', Ok tt) /\
    counted w' = counted w + length l /\
    filter is_attempt (trace (mgr w')) =
      (filter is_attempt (trace (mgr w)) ++ map ev l)%list.
Proof.
  intros Hb. induction l as [|x l IH]; intros w; simpl.
  - exists w. split; [reflexivity|]. split; [lia | now rewrite app_nil_r].
  - destruct (Hb x w) as (w1 & E1 & C1 & T1).
    destruct (IH w1) as (w2 & E2 & C2 & T2).
    exists w2. split; [now rewrite (bind_ok _ _ _ _ _ E1)|].
    split; [lia|]. rewrite T2, T1, <- app_assoc. reflexivity.
Qed.

(** X6.  Once [_create_login] and [_create_database_user] have both
    returned [True] for an entry, every role and then every grant of the
    entry is attempted, once each and in the order of the configuration,
    whether the earlier ones succeeded or failed; the step never raises,
    and the two counters together grow by the number of roles and
    grants. *)
Theorem entry_attempts_every_role_and_grant dry connection database perm w s0 s1 :
  let login := p_login perm in
  let user := effective_user perm in
  let role_list := Py.get (p_roles perm) [] in
  let grant_list := Py.get (p_grants perm) [] in
  _create_login dry connection login (Py.get (p_login_type perm) "windows") (mgr w) =
    (s0, Ok true) ->
  _create_database_user dry connection database login (Some user) s0 = (s1, Ok true) ->
  exists w',
    perm_body dry connection database perm w = (w', Ok tt) /\
    total_success w' + total_failed w' =
      total_success w + total_failed w + length role_list + length grant_list /\
    filter is_attempt (trace (mgr w')) =
      (filter is_attempt (trace s1) ++
       map (fun role => EvCall (MAddRoleMember database user role)) role_list ++
       map (fun g => EvCall (MGrantPermission database user (g_permission g) (g_object g)))
         grant_list)%list.
Proof.
  intros login user role_list grant_list E0 E1.
  set (w1 := mkWalk s1 (total_success w) (total_failed w)).
  destruct (attempt_loop (role_body dry connection database user)
              (fun role => EvCall (MAddRoleMember database user role))) with
    (l := role_list) (w := w1) as (w2 & L2 & C2 & T2).
  { intros role w0. unfold role_body, _add_role_member.
    apply attempt_step; [reflexivity | apply execute_sql_returns |].
    apply extends_execute_sql, uncounted_allowed. }
  destruct (attempt_loop (grant_body dry connection database user)
              (fun g => EvCall (MGrantPermission database user (g_permission g)
                                  (g_object g)))) with
    (l := grant_list) (w := w2) as (w3 & L3 & C3 & T3).
  { intros g w0. unfold grant_body, _grant_permission.
    destruct (Py.truthy (g_object g));
      (apply attempt_step; [reflexivity | apply execute_sql_returns |]);
      apply extends_execute_sql, uncounted_allowed. }
  exists w3. split; [|split].
  - unfold perm_body. fold login user role_list grant_list.
    rewrite (bind_ok _ _ _ _ _ (lift_eq _ _ _ _ E0)).
    rewrite (bind_ok _ _ _ _ _
               (lift_eq _ (mkWalk s0 (total_success w) (total_failed w)) _ _ E1)).
    simpl. fold w1. now rewrite (bind_ok _ _ _ _ _ L2).
  - unfold counted in *. simpl in *. lia.
  - rewrite T3, T2. simpl. now rewrite <- app_assoc.
Qed.

End EntryFacts.

Lemma entry_attempts_every_role_and_grant_instance :
  let w := mkWalk (Sim.start Demo.role_refused) 0 0 in
  exists w',
    perm_body false 1 "AppDb" Demo.entry w = (w', Ok tt) /\
    total_success w' + total_failed w' = 2 /\
    filter is_attempt (trace (mgr w')) =
      [EvCall (MAddRoleMember "AppDb" "svc" "db_datareader");
       EvCall (MGrantPermission "AppDb" "svc" "EXECUTE" (Some "dbo.uspGetData"))].
Proof.
  intros w.
  destruct (entry_attempts_every_role_and_grant false 1 "AppDb" Demo.entry w
              (fst (_create_login false 1 "DOM\svc" "windows" (mgr w)))
              (fst (_create_database_user false 1 "AppDb" "DOM\svc" (Some "svc")
                      (fst (_create_login false 1 "DOM\svc" "windows" (mgr w))))))
    as (w' & E & C & T).
  - reflexivity.
  - reflexivity.
  - exists w'. split; [exact E|]. split; [exact C | exact T].
Defined.

(** ** Servers, one after the other *)

Section ServerFacts.

Context {W : Type} `{Driver W}.
Implicit Types (s : Mgr W) (w : Walk W).








(** *** Counters of a dry run *)

Lemma attempts_app (t1 t2 : list Event) :
  attempts (t1 ++ t2) = attempts t1 + attempts t2.
Proof. unfold attempts. now rewrite filter_app, length_app. Qed.

Lemma server_failures_app (t1 t2 : list Event) :
  server_failures (t1 ++ t2) = server_failures t1 + server_failures t2.
Proof. unfold server_failures. now rewrite filter_app, length_app. Qed.

Lemma uncounted_split (tr : list Event) :
  Forall uncounted tr -> attempts tr = 0 /\ server_failures tr = 0.
Proof.
  intros F. pose proof (owed_uncounted tr F) as O. unfold owed in O. lia.
Qed.

Lemma dry_tally_trans w1 w2 w3 : dry_tally w1 w2 -> dry_tally w2 w3 -> dry_tally w1 w3.
Proof. unfold dry_tally. lia. Qed.

Lemma dry_tally_lift {A : Type} (m : M (Mgr W) A) :
  respects (extends uncounted) m -> respects dry_tally (lift m).
Proof.
  intros Hm w. destruct (Hm (mgr w)) as (tr & E & F). unfold lift.
  destruct (m (mgr w)) as [s' r]. simpl in *.
  destruct (uncounted_split _ F) as [Za Zf].
  unfold dry_tally. simpl. rewrite E, attempts_app, server_failures_app. lia.
Qed.

Lemma dry_tally_attempt e connection sql description :
  is_attempt e = true ->
  respects dry_tally
    (ok <- lift (record e ;; _execute_sql true connection sql description) ;;
     count_outcome ok).
Proof.
  intros Ha w. unfold bind at 1, lift, bind at 1, record. simpl.
  unfold dry_tally. simpl.
  rewrite !attempts_app, !server_failures_app.
  unfold attempts, server_failures. simpl. rewrite Ha.
  destruct e; try discriminate. simpl. lia.
Qed.

(** X8.  In a dry run the two counters are told apart by the trace:
    [total_success] is the number of role-membership and grant attempts
    (each is counted as a success, none can fail), and [total_failed] is
    the number of servers that ended in the handler. *)
Theorem dry_run_counts dry_config s :
  let w' := fst (walk true dry_config (mkWalk s 0 0)) in
  exists tr,
    trace (mgr w') = (trace s ++ tr)%list /\
    total_success w' = attempts tr /\
    total_failed w' = server_failures tr.
Proof.
  intros w'.
  assert (E : extends_walk (fun _ => True) (mkWalk s 0 0) w').
  { apply (extends_walk_all true (fun _ => True)); auto. constructor; auto. }
  destruct E as (tr & E & _). exists tr. split; [exact E|].
  assert (D : dry_tally (mkWalk s 0 0) w').
  { apply (respects_walk true uncounted dry_tally).
    - apply uncounted_allowed.
    - now split.
    - now split.
    - intros w. unfold dry_tally. lia.
    - apply dry_tally_trans.
    - intros A m. apply dry_tally_lift.
    - intros connection database user role. unfold role_body, _add_role_member.
      now apply dry_tally_attempt.
    - intros connection database user grant. unfold grant_body, _grant_permission.
      destruct (Py.truthy _); now apply dry_tally_attempt.
    - intros server_config e w.
      unfold server_except, bind, lift, record, logger, incr_failed. simpl.
      unfold dry_tally. simpl. rewrite attempts_app, server_failures_app.
      unfold attempts at 3, server_failures at 3. simpl. lia. }
  unfold dry_tally in D. simpl in *.
  rewrite E, attempts_app, server_failures_app in D. lia.
Qed.

End ServerFacts.

(** ** The exit status *)

Section ExitFacts.

Context {W : Type} `{Driver W}.


End ExitFacts.

(** * Properties of the health probe *)

Section ProbeFacts.

Import Probe.

Context {N Time Ms : Type} `{Net N Time Ms}.
Implicit Types (p : HealthProbe Ms) (n : N).

(** The frame of [check_endpoint]: one result more, settings as before. *)
Lemma check_endpoint_shape url expected_status p n :
  exists p' n' r,
    check_endpoint url expected_status p n = (p', n', r) /\
    results p' = (results p ++ [r])%list /\
    timeout p' = timeout p /\ verify_ssl p' = verify_ssl p /\
    r_url r = url.
Proof.
  unfold check_endpoint.
  destruct (net_utcnow_iso n) as [n1 ts].
  destruct (net_now n1) as [n2 t0].
  destruct (net_get url (timeout p) (verify_ssl p) n2) as [n3 [code| |e|e|e]];
    [destruct (net_now n3) as [n4 t1]| | | |];
    eexists _, _, _; (split; [reflexivity|]); simpl; auto.
Qed.

(** X10.  Whatever the request does, [check_endpoint] returns a result and
    appends that one result, and nothing else, to [self.results].  The
    result is healthy exactly when it carries no error; a healthy result
    carries the expected status code; and a result without a status code
    (the request raised) is unhealthy and has no response time. *)
Theorem check_endpoint_verdict url expected_status p n :
  let '(p', _, r) := check_endpoint url expected_status p n in
  results p' = (results p ++ [r])%list /\
  r_url r = url /\
  (r_healthy r = true <-> r_error r = None) /\
  (r_healthy r = true -> r_status_code r = Some expected_status) /\
  (r_status_code r = None ->
   r_healthy r = false /\ r_response_time_ms r = None).
Proof.
  unfold check_endpoint.
  destruct (net_utcnow_iso n) as [n1 ts].
  destruct (net_now n1) as [n2 t0].
  destruct (net_get url (timeout p) (verify_ssl p) n2) as [n3 [code| |e|e|e]].
  - destruct (net_now n3) as [n4 t1]. simpl.
    destruct (Z.eqb code expected_status) eqn:E; simpl.
    + apply Z.eqb_eq in E as ->. repeat split; try reflexivity; discriminate.
    + repeat split; try reflexivity; discriminate.
  - simpl. repeat split; try reflexivity; discriminate.
  - simpl. repeat split; try reflexivity; discriminate.
  - simpl. repeat split; try reflexivity; discriminate.
  - simpl. repeat split; try reflexivity; discriminate.
Qed.

Lemma check_multiple_shape endpoints : forall p n,
  exists p' n' rs,
    check_multiple endpoints p n = (p', n', rs) /\
    results p' = (results p ++ rs)%list /\
    map r_url rs = map e_url endpoints /\
    timeout p' = timeout p /\ verify_ssl p' = verify_ssl p.
Proof.
  induction endpoints as [|endpoint rest IH]; intros p n; simpl.
  - exists p, n, []. rewrite app_nil_r. auto.
  - destruct (check_endpoint_shape (e_url endpoint)
                (Py.get (e_expected_status endpoint) 200%Z) p n)
      as (p1 & n1 & r & E1 & R1 & T1 & V1 & U1).
    destruct (IH p1 n1) as (p2 & n2 & rs & E2 & R2 & M2 & T2 & V2).
    rewrite E1, E2. exists p2, n2, (r :: rs). split; [reflexivity|].
    simpl. rewrite R2, R1, <- app_assoc, U1, M2. repeat split; congruence.
Qed.

(** X11.  [check_multiple] makes one check for each endpoint of the list,
    in the order of the list: the results it returns carry the URLs of the
    endpoints one for one, an endpoint without a URL included, and
    [self.results] grows by exactly these results.  An empty list gives no
    result and leaves the world alone. *)
Theorem check_multiple_one_result_each endpoints p n :
  let '(p', n', rs) := check_multiple endpoints p n in
  results p' = (results p ++ rs)%list /\
  map r_url rs = map e_url endpoints /\
  length rs = length endpoints /\
  (endpoints = [] -> n' = n).
Proof.
  destruct (check_multiple_shape endpoints p n)
    as (p' & n' & rs & E & R & M & _). rewrite E.
  split; [exact R|]. split; [exact M|]. split.
  - rewrite <- (length_map r_url rs), M. apply length_map.
  - intros ->. simpl in E. now injection E as _ <- _.
Qed.



Lemma unhealthy_by_subtraction (l : list (CheckResult Ms)) :
  length l - length (filter r_healthy l) =
  length (filter (fun r => negb (r_healthy r)) l).
Proof.
  induction l as [|r l IH]; [reflexivity|].
  pose proof (filter_length_le r_healthy l) as L.
  cbn [filter negb length]. destruct (r_healthy r); cbn [negb length].
  - rewrite Nat.sub_succ. exact IH.
  - rewrite Nat.sub_succ_l by exact L. now rewrite IH.
Qed.

(** X13.  The three numbers [print_summary] prints agree with the results
    held: the total is their number, 'Healthy' the number of healthy ones,
    and 'Unhealthy', which the code gets by subtraction, the number of
    unhealthy ones; and with no result at all the rate line is 'N/A'. *)
Theorem summary_counts p :
  let healthy := length (filter r_healthy (results p)) in
  let unhealthy := length (filter (fun r => negb (r_healthy r)) (results p)) in
  nth_error (print_summary p) 3 =
    Some ("Total Endpoints: " ++ Py.str_nat (healthy + unhealthy)) /\
  nth_error (print_summary p) 4 = Some ("Healthy: " ++ Py.str_nat healthy) /\
  nth_error (print_summary p) 5 = Some ("Unhealthy: " ++ Py.str_nat unhealthy) /\
  (results p = [] -> nth_error (print_summary p) 6 = Some "N/A").
Proof.
  intros healthy unhealthy.
  pose proof (unhealthy_by_subtraction (results p)) as U.
  pose proof (filter_length_le r_healthy (results p)) as L.
  unfold print_summary. cbn [app nth_error].
  split; [|split; [|split]].
  - replace (healthy + unhealthy) with (length (results p)); [reflexivity|].
    subst healthy unhealthy. lia.
  - reflexivity.
  - now rewrite U.
  - intros E. now rewrite E.
Qed.

End ProbeFacts.

(** A configuration file without the key 'endpoints': nothing is checked,
    no request is made, and the probe reports success. *)
Example probe_nothing_to_check :
  let run := Probe.main (Probe.mkArgs None (Some "probe.json") 10 false None)
               (Probe.Loaded None) "usage" [Probe.GotResponse 500] in
  Probe.run_exit run = 0%Z /\ Probe.results (Probe.run_probe run) = [] /\
  Probe.run_world run = [Probe.GotResponse 500].
Proof. repeat split. Qed.

(** One endpoint answers 503 where 200 is expected. *)
Example probe_unexpected_status :
  let run := Probe.main (Probe.mkArgs (Some "https://app/health") None 10 false None)
               Probe.NoSuchFile "usage" [Probe.GotResponse 503] in
  Probe.run_exit run = 1%Z /\
  map Probe.r_error (Probe.results (Probe.run_probe run)) =
    [Some "Expected status 200, got 503"].
Proof. repeat split. Qed.
